(** * SlimRabbit: middleware dispatch core

    A shallow embedding of [src/context.js] (class [Context]) and of the
    application module (class [Application]: [prefetch], [use], [connect],
    [close], [createConnection], [createChannel] and the per-message
    [messageHandler]), with the properties of the specification proved
    about it.

    JavaScript values are a small inductive type with their [typeof];
    objects live in a heap and are passed by reference; a function that
    can throw, or an [async] function whose promise can reject, is a
    computation in a state-and-exception monad over one [state] record.
    One message is dispatched at a time: every [await] is run to its end
    where it stands.

    The transport ([amqplib]), the event listeners and the middleware
    functions are parameters: an oracle for the calls that leave the
    framework, and the code of each function by its identity.  The
    composition engine ([koa-compose]) is not part of the repository and is
    modelled from the specification.

    The file has three parts: the model, the vocabulary of the statements
    with sample inputs, and the properties. *)

From Stdlib Require Import ZArith Lia.
From Stdlib Require Import Strings.Byte.
From stdpp Require Import gmap strings list fin_maps.

Local Open Scope string_scope.
Local Open Scope list_scope.

(** ** JavaScript values *)

Definition loc := nat.
Definition fid := string.

Inductive value : Type :=
| VUndef
| VNull
| VBool (b : bool)
| VNum (n : Z)
| VStr (s : string)
| VBuf (bytes : list byte)      (* an instance of Buffer *)
| VFun (f : fid)                (* a function object, named by its identity *)
| VRef (l : loc)                (* a plain object, by reference into the heap *)
| VApp                          (* the Application instance *)
| VHandle (h : nat)             (* a connection or channel of the transport *)
| VError (msg : string)         (* new Error(msg) *)
| VTypeError (msg : string).    (* new TypeError(msg) *)

Inductive jstype : Type :=
| TUndefined | TObject | TBoolean | TNumber | TString | TFunction.

#[global] Instance jstype_eq_dec : EqDecision jstype.
Proof. solve_decision. Defined.

(** [typeof v]; note [typeof null === 'object']. *)
Definition typeof (v : value) : jstype :=
  match v with
  | VUndef => TUndefined
  | VNull => TObject
  | VBool _ => TBoolean
  | VNum _ => TNumber
  | VStr _ => TString
  | VBuf _ => TObject
  | VFun _ => TFunction
  | VRef _ => TObject
  | VApp => TObject
  | VHandle _ => TObject
  | VError _ => TObject
  | VTypeError _ => TObject
  end.

(** [v instanceof Buffer] and [Buffer.isBuffer(v)]. *)
Definition instanceof_Buffer (v : value) : bool :=
  match v with VBuf _ => true | _ => false end.

(** JavaScript truthiness, as tested by [if (x)]. *)
Definition truthy (v : value) : bool :=
  match v with
  | VUndef | VNull => false
  | VBool b => b
  | VNum n => negb (n =? 0)%Z
  | VStr s => negb (String.eqb s "")
  | _ => true
  end.

(** A parameter with a default initialiser, [f(x = d)]: the default is
    taken when the argument is [undefined]. *)
Definition default_param (v d : value) : value :=
  match v with VUndef => d | _ => v end.

(** ** Outcomes *)

(** [Normal v]: the call returned [v] (for an [async] function: its
    promise is fulfilled with [v]).  [Throw e]: the call threw [e] (for an
    [async] function: its promise is rejected with [e]). *)
Inductive outcome (A : Type) : Type :=
| Normal (a : A)
| Throw (e : value).
Arguments Normal {A} a.
Arguments Throw {A} e.

(** ** The application object and the state of the world *)

(** A call that leaves the framework: [amqplib.connect], or a method of
    an object the framework does not own (connection, channel, ...). *)
Inductive call : Type :=
| AmqpConnect (url socketOpts : value)
| Method (target : value) (name : string) (args : list value).

Record App : Type := mkApp {
  queueName : value;
  queueOpts : value;
  consumeOpts : value;
  context : gmap string value;          (* own properties of app.context *)
  middlewares : list value;
  prefetchOpts : option (value * value); (* { count, global } when set *)
  connection : value;
  consumerChannel : value;
  publisherChannel : value;
  consumerTag : value;
  listeners : gmap string (list fid)     (* EventEmitter: listeners per event *)
}.

Record state (U : Type) : Type := mkState {
  app : App;
  heap : list (gmap string value);       (* plain objects, by location *)
  calls : list call;                     (* calls that left the framework *)
  emitted : list (string * list value);  (* app.emit(name, ...args), in order *)
  unhandled : list value;                (* rejections nobody awaits *)
  user : U                               (* data of handlers and listeners *)
}.
Arguments mkState {U}.
Arguments app {U}.
Arguments heap {U}.
Arguments calls {U}.
Arguments emitted {U}.
Arguments unhandled {U}.
Arguments user {U}.

Section Setters.
Context {U : Type}.

Definition set_app (f : App -> App) (s : state U) : state U :=
  mkState (f (app s)) (heap s) (calls s) (emitted s) (unhandled s) (user s).
Definition set_heap (h : list (gmap string value)) (s : state U) : state U :=
  mkState (app s) h (calls s) (emitted s) (unhandled s) (user s).
Definition add_call (c : call) (s : state U) : state U :=
  mkState (app s) (heap s) (calls s ++ [c]) (emitted s) (unhandled s) (user s).
Definition add_emitted (e : string * list value) (s : state U) : state U :=
  mkState (app s) (heap s) (calls s) (emitted s ++ [e]) (unhandled s) (user s).
Definition add_unhandled (e : value) (s : state U) : state U :=
  mkState (app s) (heap s) (calls s) (emitted s) (unhandled s ++ [e]) (user s).
Definition set_user (u : U) (s : state U) : state U :=
  mkState (app s) (heap s) (calls s) (emitted s) (unhandled s) u.
End Setters.

Definition with_middlewares (m : list value) (a : App) : App :=
  mkApp (queueName a) (queueOpts a) (consumeOpts a) (context a) m
        (prefetchOpts a) (connection a) (consumerChannel a)
        (publisherChannel a) (consumerTag a) (listeners a).
Definition with_prefetchOpts (p : option (value * value)) (a : App) : App :=
  mkApp (queueName a) (queueOpts a) (consumeOpts a) (context a) (middlewares a)
        p (connection a) (consumerChannel a)
        (publisherChannel a) (consumerTag a) (listeners a).
Definition with_connection (v : value) (a : App) : App :=
  mkApp (queueName a) (queueOpts a) (consumeOpts a) (context a) (middlewares a)
        (prefetchOpts a) v (consumerChannel a)
        (publisherChannel a) (consumerTag a) (listeners a).
Definition with_consumerChannel (v : value) (a : App) : App :=
  mkApp (queueName a) (queueOpts a) (consumeOpts a) (context a) (middlewares a)
        (prefetchOpts a) (connection a) v
        (publisherChannel a) (consumerTag a) (listeners a).
Definition with_publisherChannel (v : value) (a : App) : App :=
  mkApp (queueName a) (queueOpts a) (consumeOpts a) (context a) (middlewares a)
        (prefetchOpts a) (connection a) (consumerChannel a)
        v (consumerTag a) (listeners a).
Definition with_consumerTag (v : value) (a : App) : App :=
  mkApp (queueName a) (queueOpts a) (consumeOpts a) (context a) (middlewares a)
        (prefetchOpts a) (connection a) (consumerChannel a)
        (publisherChannel a) v (listeners a).

(** ** The monad of framework code *)

Definition M (U A : Type) : Type := state U -> outcome A * state U.

Section Monad.
Context {U : Type}.

Definition ret {A} (a : A) : M U A := fun s => (Normal a, s).
Definition throw {A} (e : value) : M U A := fun s => (Throw e, s).
Definition bind {A B} (m : M U A) (k : A -> M U B) : M U B :=
  fun s => match m s with
           | (Normal a, s') => k a s'
           | (Throw e, s') => (Throw e, s')
           end.
(** [try { m } catch (err) { h err }] *)
Definition try_catch {A} (m : M U A) (h : value -> M U A) : M U A :=
  fun s => match m s with
           | (Normal a, s') => (Normal a, s')
           | (Throw e, s') => h e s'
           end.
Definition get : M U (state U) := fun s => (Normal s, s).
Definition modify (f : state U -> state U) : M U unit :=
  fun s => (Normal tt, f s).
End Monad.

Notation "x <- m ;; k" := (bind m (fun x => k))
  (at level 100, m at next level, right associativity).
Notation "m ;;; k" := (bind m (fun _ => k))
  (at level 100, right associativity).

(** ** Application.prefetch and Application.use *)

Section Registration.
Context {U : Type}.

(** [prefetch(count, global = false)]: the second test is written on
    [count], as in the source. *)
Definition prefetch (count global : value) : M U value :=
  let global := default_param global (VBool false) in
  if negb (bool_decide (typeof count = TNumber)) then
    throw (VTypeError "[count] must be a number.")
  else if negb (bool_decide (typeof count = TBoolean)) then
    throw (VTypeError "[global] must be a boolean.")
  else
    modify (set_app (with_prefetchOpts (Some (count, global)))) ;;;
    ret VUndef.

(** The loop of [use]: the first argument that is not a function throws. *)
Fixpoint check_functions (fns : list value) : M U unit :=
  match fns with
  | [] => ret tt
  | fn :: rest =>
      if negb (bool_decide (typeof fn = TFunction)) then
        throw (VTypeError "Middleware must be composed of functions!")
      else check_functions rest
  end.

(** [use(...middlewares)]; it returns [this]. *)
Definition use (mws : list value) : M U value :=
  check_functions mws ;;;
  s <- get ;;
  modify (set_app (with_middlewares (middlewares (app s) ++ mws))) ;;;
  ret VApp.
End Registration.


(** ** The world outside: transport, listeners, runtime helpers *)

Section Framework.
Context {U : Type}.

(** What a call that leaves the framework answers, given the calls made
    so far: the transport's behaviour, left arbitrary. *)
Variable extern : list call -> call -> outcome value.

(** The code of each registered event listener: it sees the arguments of
    the event and the whole state, and works on the user data; it may
    throw. *)
Variable listener : fid -> list value -> state U -> outcome unit * U.

(** [JSON.stringify] on the heap, and the string conversion of a template
    literal for values that are not strings. *)
Variable JSON_stringify : list (gmap string value) -> value -> outcome value.
Variable ToString : value -> string.

Definition lift {A} (o : outcome A) : M U A := fun s => (o, s).

Definition ext_call (c : call) : M U value :=
  fun s => (extern (calls s) c, add_call c s).

(** [target.name(...args)] on an object the framework does not own.  For
    an awaited call the outcome is that of the awaited promise; for a call
    that is not awaited it is that of the call itself. *)
Definition call_method (target : value) (name : string) (args : list value)
  : M U value :=
  match target with
  | VUndef => throw (VTypeError "Cannot read properties of undefined")
  | VNull => throw (VTypeError "Cannot read properties of null")
  | _ => ext_call (Method target name args)
  end.

(** The object literal [{}]: a fresh empty object. *)
Definition alloc (o : gmap string value) : M U value :=
  fun s => (Normal (VRef (length (heap s))), set_heap (heap s ++ [o]) s).

Definition own_props (v : value) (s : state U) : gmap string value :=
  match v with
  | VRef l => default ∅ (heap s !! l)
  | _ => ∅
  end.

(** *** EventEmitter.emit *)

(** Node calls the listeners of the event synchronously, in registration
    order; an exception of a listener propagates out of [emit], which
    returns whether the event had listeners.  (The application never emits
    the bare ['error'] event, which Node treats apart.  Listeners registered
    with [once], which Node removes as it calls them, are not followed: the
    listeners stay as they are registered.) *)
Fixpoint run_listeners (ls : list fid) (args : list value) : M U unit :=
  match ls with
  | [] => ret tt
  | l :: rest =>
      (fun s => let '(o, u) := listener l args s in (o, set_user u s)) ;;;
      run_listeners rest args
  end.

Definition emit (name : string) (args : list value) : M U value :=
  s <- get ;;
  let ls := default [] (listeners (app s) !! name) in
  modify (add_emitted (name, args)) ;;;
  run_listeners ls args ;;;
  ret (VBool (negb (bool_decide (ls = [])))).

(** ** class Context *)

(** The constructor's own assignments, in source order. *)
Definition Context_fields (a : App) (message state : value)
  : list (string * value) :=
  [ ("app", VApp);
    ("connection", connection a);
    ("consumerChannel", consumerChannel a);
    ("publisherChannel", publisherChannel a);
    ("queueName", queueName a);
    ("message", message);
    ("queueOpts", queueOpts a);
    ("consumeOpts", consumeOpts a);
    ("state", state) ].

Definition assign_fields (o : gmap string value) (kvs : list (string * value))
  : gmap string value :=
  foldl (fun acc kv => <[kv.1 := kv.2]> acc) o kvs.

(** [Object.assign(target, source)]: every own enumerable property of
    [source] is set on [target]. *)
Definition Object_assign (target source : gmap string value)
  : gmap string value :=
  map_fold (fun k v acc => <[k := v]> acc) target source.

(** The names [delegates] installs on [Context.prototype]: methods
    forwarded to [consumerChannel]; getters forwarded to [message],
    [properties] and [fields]; and [content], forwarded to [message] with
    a getter and a setter. *)
Definition delegated_methods : list string :=
  ["ack"; "ackAll"; "nack"; "nackAll"; "reject"].
Definition delegated_getters : list string :=
  ["fields"; "properties"; "headers"; "consumerTag";
   "deliveryTag"; "redelivered"; "exchange"; "routingKey"].
Definition delegated_accessors : list string :=
  delegated_getters ++ ["content"].

(** [source] has a key that [Object.assign] cannot write on a Context: the
    prototype has a getter of that name and no setter, and [Object.assign]
    throws a TypeError when an assignment fails. *)
Definition refused_key (source : gmap string value) : bool :=
  existsb (fun k => bool_decide (is_Some (source !! k))) delegated_getters.

(** The methods found on [Context.prototype].  [bufferFrom] is declared
    [static]: it is a property of the class, not of the prototype. *)
Definition Context_prototype : list string :=
  ["publish"; "sendToQueue"; "onerror"] ++ delegated_methods.

(** [new Context(app, message)]: the instance, then the object of
    [this.state = {}], are allocated; the instance gets the constructor's
    fields and then the properties of [app.context].  A key of
    [app.context] that names a delegated getter makes [Object.assign], and
    so the constructor, throw; the half-built instance is then unreachable
    and is left out of the heap.  (Keys [content], which has a setter, and
    [__proto__] are written through their setters, which is not modelled:
    the results below leave them out.) *)
Definition new_Context (message : value) : M U value :=
  fun s =>
    let this := length (heap s) in
    let st := S this in
    if refused_key (context (app s)) then
      (Throw (VTypeError "Cannot set property which has only a getter"), s)
    else
      let own :=
        Object_assign
          (assign_fields ∅ (Context_fields (app s) message (VRef st)))
          (context (app s)) in
      (Normal (VRef this), set_heap (heap s ++ [own; ∅]) s).

(** [this.name] on a Context, for a name that is not a delegated
    accessor: the own property, else the prototype's method. *)
Definition Context_get (own : gmap string value) (name : string) : value :=
  match own !! name with
  | Some v => v
  | None =>
      if bool_decide (name ∈ Context_prototype)
      then VFun ("Context.prototype." +:+ name)
      else VUndef
  end.

(** [Buffer.from(string)] *)
Definition Buffer_from (v : value) : M U value :=
  match v with
  | VStr s => ret (VBuf (String.list_byte_of_string s))
  | _ => throw (VTypeError "The first argument must be of type string")
  end.

(** The template literal [`${data}`]. *)
Definition template_literal (data : value) : string :=
  match data with VStr x => x | _ => ToString data end.

(** [static bufferFrom(data)] *)
Definition bufferFrom (data : value) : M U value :=
  if instanceof_Buffer data then ret data
  else
    str <- (if bool_decide (typeof data = TObject)
            then s <- get ;; lift (JSON_stringify (heap s) data)
            else ret (VStr (template_literal data))) ;;
    Buffer_from str.

(** The call [this.bufferFrom(content)] of the instance methods.  The
    function object of the static method is [VFun "Context.bufferFrom"];
    any other function found is foreign code. *)
Definition this_bufferFrom (this content : value) : M U value :=
  s <- get ;;
  match Context_get (own_props this s) "bufferFrom" with
  | VFun f =>
      if String.eqb f "Context.bufferFrom" then bufferFrom content
      else ext_call (Method this "bufferFrom" [content])
  | _ => throw (VTypeError "this.bufferFrom is not a function")
  end.

Definition content_accepted (content : value) : bool :=
  bool_decide (typeof content = TString)
  || bool_decide (typeof content = TObject)
  || instanceof_Buffer content.

(** [async publish(exchange, routingKey, content, options = {})] *)
Definition Context_publish (this exchange routingKey content options : value)
  : M U value :=
  options <- (match options with VUndef => alloc ∅ | _ => ret options end) ;;
  if negb (bool_decide (typeof exchange = TString)) then
    throw (VTypeError "[exchange] must be a string.")
  else if negb (bool_decide (typeof routingKey = TString)) then
    throw (VTypeError "[routingKey] must be a string.")
  else if negb (content_accepted content) then
    throw (VTypeError
             "[content] must be a string, object or an instance of Buffer.")
  else if negb (bool_decide (typeof options = TObject)) then
    throw (VTypeError "[options] must be an object.")
  else
    content <- this_bufferFrom this content ;;
    s <- get ;;
    call_method (Context_get (own_props this s) "publisherChannel")
                "publish" [exchange; routingKey; content; options].

(** [async sendToQueue(queue, content, options = {})] *)
Definition Context_sendToQueue (this queue content options : value)
  : M U value :=
  options <- (match options with VUndef => alloc ∅ | _ => ret options end) ;;
  if negb (bool_decide (typeof queue = TString)) then
    throw (VTypeError "[queue] must be a string")
  else if negb (content_accepted content) then
    throw (VTypeError
             "[content] must be a string, object or an instance of Buffer.")
  else if negb (bool_decide (typeof options = TObject)) then
    throw (VTypeError "[options] must be an object.")
  else
    content <- this_bufferFrom this content ;;
    s <- get ;;
    call_method (Context_get (own_props this s) "publisherChannel")
                "sendToQueue" [queue; content; options].

(** [onerror(err) { this.app.emit('consumer:error', err, this); }] *)
Definition Context_onerror (this err : value) : M U value :=
  s <- get ;;
  match Context_get (own_props this s) "app" with
  | VApp => emit "consumer:error" [err; this] ;;; ret VUndef
  | a => call_method a "emit" [VStr "consumer:error"; err; this] ;;; ret VUndef
  end.

(** The call [context.onerror(err)]: an own property of that name, put
    there from [app.context], is found before the prototype's method. *)
Definition call_onerror (context err : value) : M U value :=
  s <- get ;;
  match own_props context s !! "onerror" with
  | None => Context_onerror context err
  | Some (VFun _) => ext_call (Method context "onerror" [err])
  | Some _ => throw (VTypeError "context.onerror is not a function")
  end.

(** ** Middleware and its composition *)

(** The body of a middleware function, as the sequence of things it does:
    work on its own data, look at the state, await a call to the
    transport, write a property of an object of the heap (the Context it
    is handed, its [state], the message), act on the application, throw,
    return, and [await next()] with what follows on success ([ok]) and on
    failure ([err]; [Fail] when the handler has no [catch] around it). *)
Inductive hprog : Type :=
| Done
| Fail (e : value)
| Act (f : U -> U) (k : hprog)
| Read (k : state U -> hprog)
| Extern (c : call) (k : outcome value -> hprog)
| Store (l : loc) (name : string) (v : value) (k : hprog)
| OnApp (f : App -> App) (k : hprog)
| AwaitNext (ok : hprog) (err : value -> hprog).

(** The code of each middleware function, applied to the Context. *)
Variable code : fid -> value -> hprog.

(** One chain execution carries the engine's guard, the index of the last
    handler dispatched, next to the state; handlers cannot reach it. *)
Definition chain (A : Type) : Type :=
  Z * state U -> outcome A * (Z * state U).

Fixpoint run (p : hprog) (next : chain unit) (cs : Z * state U)
  : outcome unit * (Z * state U) :=
  match p with
  | Done => (Normal tt, cs)
  | Fail e => (Throw e, cs)
  | Act f k => run k next (cs.1, set_user (f (user cs.2)) cs.2)
  | Read k => run (k cs.2) next cs
  | Extern c k =>
      run (k (extern (calls cs.2) c)) next (cs.1, add_call c cs.2)
  | Store l name v k =>
      run k next
          (cs.1, set_heap (alter (insert name v) l (heap cs.2)) cs.2)
  | OnApp f k => run k next (cs.1, set_app f cs.2)
  | AwaitNext ok err =>
      match next cs with
      | (Normal _, cs') => run ok next cs'
      | (Throw e, cs') => run (err e) next cs'
      end
  end.

(** Modelled from the spec: the distinct error of a [next] invoked again. *)
Definition next_called_multiple_times : value :=
  VError "next called multiple times".

(** Modelled from the spec: the composition engine ([koa-compose], a
    dependency whose code is not in the repository).  Dispatching index [i]
    invokes handler [i] with the context and a [next] that dispatches
    [i + 1]; dispatching past the last handler is a completed no-op; a
    [next] invoked again fails the chain with a distinct error instead of
    dispatching. *)
Fixpoint dispatch (hs : list fid) (i : nat) (ctx : value) (cs : Z * state U)
  : outcome unit * (Z * state U) :=
  if (Z.of_nat i <=? cs.1)%Z then (Throw next_called_multiple_times, cs)
  else
    match hs with
    | [] => (Normal tt, (Z.of_nat i, cs.2))
    | h :: rest =>
        run (code h ctx) (dispatch rest (S i) ctx) (Z.of_nat i, cs.2)
    end.

Definition function_ids (vs : list value) : list fid :=
  omap (fun v => match v with VFun f => Some f | _ => None end) vs.

(** Modelled from the spec: the composed handler starts a chain at index
    0, with a guard of its own. *)
Definition composed (hs : list fid) : value -> M U unit :=
  fun ctx s =>
    let '(o, cs) := dispatch hs 0 ctx ((-1)%Z, s) in (o, cs.2).

(** Modelled from the spec: [compose(handlers)]; a sequence with a
    non-callable element is refused at composition time. *)
Definition compose (handlers : list value) : outcome (value -> M U unit) :=
  if forallb (fun v => bool_decide (typeof v = TFunction)) handlers then
    Normal (composed (function_ids handlers))
  else Throw (VTypeError "Middleware must be composed of functions!").

(** ** class Application: message dispatch *)

(** The callback [async (message) => { ... }] that [messageHandler()]
    returns, over the composed handler [fn]. *)
Definition on_message (fn : value -> M U unit) (message : value)
  : M U value :=
  context <- new_Context message ;;
  try_catch (fn context ;;; ret VUndef)
            (fun err => call_onerror context err ;;; ret VUndef).

(** [messageHandler()]: composes [this.middlewares] once. *)
Definition messageHandler : M U (value -> M U value) :=
  s <- get ;;
  fn <- lift (compose (middlewares (app s))) ;;
  ret (on_message fn).

(** ** class Application: connection *)

(** [async createConnection(url, socketOpts)] *)
Definition createConnection (url socketOpts : value) : M U value :=
  connection <- ext_call (AmqpConnect url socketOpts) ;;
  emit "connection:created" [connection] ;;;
  call_method connection "on" [VStr "error"; VFun "connection:error"] ;;;
  call_method connection "on" [VStr "close"; VFun "connection:close"] ;;;
  ret connection.

(** [async createChannel(connection, key)] *)
Definition createChannel (connection : value) (key : string) : M U value :=
  channel <- call_method connection "createChannel" [] ;;
  emit (key +:+ ":created") [channel] ;;;
  call_method channel "on" [VStr "error"; VFun (key +:+ ":error")] ;;;
  call_method channel "on" [VStr "close"; VFun (key +:+ ":close")] ;;;
  ret channel.

(** The inner [consume]: the handler is built first, then the queue is
    asserted and the subscription requested. *)
Definition consume : M U value :=
  messageHandler ;;;
  s <- get ;;
  call_method (consumerChannel (app s)) "assertQueue"
              [queueName (app s); queueOpts (app s)] ;;;
  call_method (consumerChannel (app s)) "consume"
              [queueName (app s); VFun "messageHandler"; consumeOpts (app s)].

(** The body of [connect]'s [try] block.  The call of [prefetch] is the
    one transport call that is not awaited. *)
Definition connect_setup (url socketOpts : value) : M U unit :=
  c <- createConnection url socketOpts ;;
  modify (set_app (with_connection c)) ;;;
  s <- get ;;
  ch <- createChannel (connection (app s)) "consumer-channel" ;;
  modify (set_app (with_consumerChannel ch)) ;;;
  s <- get ;;
  match prefetchOpts (app s) with
  | Some (count, global) =>
      call_method (consumerChannel (app s)) "prefetch" [count; global] ;;;
      ret tt
  | None => ret tt
  end ;;;
  s <- get ;;
  pch <- createChannel (connection (app s)) "publisher-channel" ;;
  modify (set_app (with_publisherChannel pch)) ;;;
  tag <- consume ;;
  modify (set_app (with_consumerTag tag)) ;;;
  s <- get ;;
  emit "consumer:listen" [queueName (app s); tag] ;;;
  ret tt.

(** [async close()] *)
Definition close : M U value :=
  s <- get ;;
  (if truthy (consumerChannel (app s))
   then call_method (consumerChannel (app s)) "close" [] else ret VUndef) ;;;
  modify (set_app (with_consumerChannel VUndef)) ;;;
  s <- get ;;
  (if truthy (publisherChannel (app s))
   then call_method (publisherChannel (app s)) "close" [] else ret VUndef) ;;;
  modify (set_app (with_publisherChannel VUndef)) ;;;
  s <- get ;;
  (if truthy (connection (app s))
   then call_method (connection (app s)) "close" [] else ret VUndef) ;;;
  modify (set_app (with_connection VUndef)) ;;;
  ret VUndef.

(** The [catch (err)] block of [connect]:
    [this.close().catch((closeError) => { throw err; })].  The promise of
    [close()] is not awaited and the promise [.catch] returns is dropped:
    the block completes normally; when [close()] fails, the callback's
    [throw err] rejects that dropped promise, which nobody observes.
    [close] is run here to its end, as the event loop does later. *)
Definition connect_cleanup (err : value) : M U unit :=
  fun s =>
    match close s with
    | (Normal _, s') => (Normal tt, s')
    | (Throw closeError, s') => (Normal tt, add_unhandled err s')
    end.

(** [async connect(url, socketOpts = {})] *)
Definition connect (url socketOpts : value) : M U value :=
  socketOpts <- (match socketOpts with
                 | VUndef => alloc ∅
                 | _ => ret socketOpts
                 end) ;;
  s <- get ;;
  if bool_decide (middlewares (app s) = []) then
    throw (VError "At least one queue middleware is required.")
  else if bool_decide
            (default [] (listeners (app s) !! "consumer:error") = []) then
    throw (VError "An error handler is required.")
  else if negb (bool_decide (typeof url = TString)) then
    throw (VTypeError "[url] must be a string.")
  else if negb (bool_decide (typeof socketOpts = TObject)) then
    throw (VTypeError "[socketOpts] must be an object.")
  else
    try_catch (connect_setup url socketOpts) connect_cleanup ;;;
    ret VUndef.

End Framework.

Arguments hprog U : clear implicits.
Arguments chain U A : clear implicits.

(** * The rest of the two classes *)

Section Lifecycle.
Context {U : Type}.
Variable extern : list call -> call -> outcome value.
Variable listener : fid -> list value -> state U -> outcome unit * U.

(** ** class Application: constructor *)

(** What the constructor leaves in a new application: the queue name and
    options, an empty [context], no middleware; an EventEmitter starts
    without listeners, and the other fields are not assigned yet. *)
Definition fresh_app (queueName queueOpts consumeOpts : value) : App :=
  mkApp queueName queueOpts consumeOpts ∅ [] None
        VUndef VUndef VUndef VUndef ∅.

(** [constructor(queueName, queueOpts = {}, consumeOpts = {})]; the state
    holds one application, which a successful construction initialises. *)
Definition new_Application (queueName queueOpts consumeOpts : value)
  : M U value :=
  queueOpts <- (match queueOpts with
                | VUndef => alloc ∅
                | _ => ret queueOpts
                end) ;;
  consumeOpts <- (match consumeOpts with
                  | VUndef => alloc ∅
                  | _ => ret consumeOpts
                  end) ;;
  if negb (bool_decide (typeof queueName = TString)) then
    throw (VTypeError "[queueName] must be a string.")
  else if negb (bool_decide (typeof queueOpts = TObject)) then
    throw (VTypeError "[queueOpts] must be an object.")
  else if negb (bool_decide (typeof consumeOpts = TObject)) then
    throw (VTypeError "[consumeOpts] must be an object.")
  else
    modify (set_app (fun _ => fresh_app queueName queueOpts consumeOpts)) ;;;
    ret VApp.

(** ** Reading and writing a property *)

(** [target[name]] for the names this code reads ([message], [fields],
    [properties], [content], [headers] and the names of the framing
    fields): a plain object gives its own property or [undefined]; an
    error object has a [message]; the other values of the model have no
    property of these names; reading off [undefined] or [null] throws; an
    object of the transport is asked. *)
Definition get_member (target : value) (name : string) : M U value :=
  match target with
  | VUndef => throw (VTypeError "Cannot read properties of undefined")
  | VNull => throw (VTypeError "Cannot read properties of null")
  | VRef _ => s <- get ;; ret (default VUndef (own_props target s !! name))
  | VError m | VTypeError m =>
      ret (if String.eqb name "message" then VStr m else VUndef)
  | VHandle _ => ext_call extern (Method target ("get " +:+ name) [])
  | _ => ret VUndef
  end.

(** [target[name] = v], as the setter that [delegates] installs does it
    (code that is not in strict mode): a plain object takes the property;
    writing on [undefined] or [null] throws; a write on a boolean, a number
    or a string is dropped; what a write on an object that is not kept on
    the heap does is asked of the oracle. *)
Definition set_member (target : value) (name : string) (v : value)
  : M U value :=
  match target with
  | VUndef => throw (VTypeError "Cannot set properties of undefined")
  | VNull => throw (VTypeError "Cannot set properties of null")
  | VRef l =>
      modify (fun s => set_heap (alter (insert name v) l (heap s)) s) ;;;
      ret v
  | VBool _ | VNum _ | VStr _ => ret v
  | _ => ext_call extern (Method target ("set " +:+ name) [v])
  end.

(** ** Callbacks registered on the connection and on the channels *)

(** [(err) => { if (err.message !== 'Connection closing')
    this.emit('connection:error', err); }] *)
Definition connection_error_callback (err : value) : M U value :=
  m <- get_member err "message" ;;
  match m with
  | VStr text =>
      if String.eqb text "Connection closing" then ret VUndef
      else emit listener "connection:error" [err] ;;; ret VUndef
  | _ => emit listener "connection:error" [err] ;;; ret VUndef
  end.

(** [() => { this.emit('connection:close'); }] *)
Definition connection_close_callback : M U value :=
  emit listener "connection:close" [] ;;; ret VUndef.

(** [(err) => { this.emit(`${key}:error`, err); }] *)
Definition channel_error_callback (key : string) (err : value) : M U value :=
  emit listener (key +:+ ":error") [err] ;;; ret VUndef.

(** [() => { this.emit(`${key}:close`); }] *)
Definition channel_close_callback (key : string) : M U value :=
  emit listener (key +:+ ":close") [] ;;; ret VUndef.

(** ** class Context: delegated members *)

(** A method delegated to [consumerChannel]:
    [this.consumerChannel.name(...args)]. *)
Definition Context_delegated (name : string) (this : value)
    (args : list value) : M U value :=
  s <- get ;;
  call_method extern (Context_get (own_props this s) "consumerChannel")
              name args.

(** The call [ctx.name(...args)] of a delegated method: an own property of
    that name, put there from [app.context], is found first. *)
Definition call_delegated (name : string) (ctx : value) (args : list value)
  : M U value :=
  s <- get ;;
  match own_props ctx s !! name with
  | None => Context_delegated name ctx args
  | Some (VFun _) => ext_call extern (Method ctx name args)
  | Some _ => throw (VTypeError "ctx method is not a function")
  end.

(** A getter delegated to [message]: [fields], [properties], [content]. *)
Definition Context_message_getter (name : string) (this : value)
  : M U value :=
  s <- get ;;
  get_member (Context_get (own_props this s) "message") name.

(** The getter [headers], delegated to [properties]. *)
Definition Context_properties_getter (name : string) (this : value)
  : M U value :=
  p <- Context_message_getter "properties" this ;;
  get_member p name.

(** The getters [consumerTag], [deliveryTag], [redelivered], [exchange]
    and [routingKey], delegated to [fields]. *)
Definition Context_fields_getter (name : string) (this : value)
  : M U value :=
  f <- Context_message_getter "fields" this ;;
  get_member f name.

(** The setter of [content]: [this.message.content = val]. *)
Definition Context_content_setter (this val : value) : M U value :=
  s <- get ;;
  set_member (Context_get (own_props this s) "message") "content" val.

End Lifecycle.

(** * Vocabulary of the statements *)

(** An [app.context] whose keys are written as own properties: none names
    an accessor found on the prototype chain of a Context (the ones
    [delegates] installs, and [__proto__]).  The README says as much:
    properties defined with getters and setters cannot be edited through
    [app.context]. *)
Definition plain_context (a : App) : Prop :=
  forall k, k ∈ delegated_accessors ++ ["__proto__"] -> context a !! k = None.

(** The own properties of a Context just built: those of [app.context],
    over the constructor's fields. *)
Definition Context_own (a : App) (message st : value) : gmap string value :=
  context a ∪ assign_fields ∅ (Context_fields a message st).

(** What the argument checks of [publish] and [sendToQueue] refuse; an
    omitted [options] is [{}]. *)
Definition publish_args_refused (exchange routingKey content options : value)
  : Prop :=
  typeof exchange <> TString \/ typeof routingKey <> TString \/
  content_accepted content = false \/
  (options <> VUndef /\ typeof options <> TObject).

Definition sendToQueue_args_refused (queue content options : value) : Prop :=
  typeof queue <> TString \/ content_accepted content = false \/
  (options <> VUndef /\ typeof options <> TObject).

(** The four checks at the head of [connect]. *)
Definition connect_checks_pass (url socketOpts : value) (a : App) : Prop :=
  middlewares a <> [] /\
  default [] (listeners a !! "consumer:error") <> [] /\
  typeof url = TString /\
  (socketOpts = VUndef \/ typeof socketOpts = TObject).

Section Vocabulary.
Context {U : Type}.
Variable listener : fid -> list value -> state U -> outcome unit * U.

(** A parameter [options = {}] after its initialiser has run: the default
    allocates, and makes no call. *)
Definition with_default_object (options : value) (s : state U)
  : value * state U :=
  match options with
  | VUndef => (VRef (length (heap s)), set_heap (heap s ++ [∅]) s)
  | _ => (options, s)
  end.





(** No listener of the event throws. *)
Definition listeners_return (a : App) (name : string) : Prop :=
  forall l, l ∈ default [] (listeners a !! name) ->
  forall args (s : state U), (listener l args s).1 = Normal tt.

(** The log of calls only grows. *)
Definition appending {A : Type} (m : M U A) : Prop :=
  forall s, exists l, calls (m s).2 = calls s ++ l.

(** The computation's first call is [c]. *)
Definition starts_with {A : Type} (c : call) (m : M U A) : Prop :=
  forall s, exists l, calls (m s).2 = calls s ++ c :: l.

End Vocabulary.

(** ** Traces *)

Inductive event : Type :=
| Entry (i : nat)
| Exit (i : nat).

(** Handler [i] of the trace property: it records its entry, awaits
    [next()], records its exit. *)
Definition recorder (i : nat) : hprog (list event) :=
  Act (fun t => t ++ [Entry i])
      (AwaitNext (Act (fun t => t ++ [Exit i]) Done) Fail).

(** entry(i), ..., entry(i+n-1), exit(i+n-1), ..., exit(i) *)
Definition onion (i n : nat) : list event :=
  map Entry (seq i n) ++ map Exit (reverse (seq i n)).

(** ** Sample inputs *)

(** A transport that answers every call with a new handle, one that
    refuses the connection, and one that opens the connection, refuses the
    channel, and then fails to close the connection. *)
Definition obliging_transport : list call -> call -> outcome value :=
  fun past _ => Normal (VHandle (length past)).

Definition refusing_transport : list call -> call -> outcome value :=
  fun _ c =>
    match c with
    | AmqpConnect _ _ => Throw (VError "ECONNREFUSED")
    | Method _ _ _ => Normal VUndef
    end.

Definition half_open_transport : list call -> call -> outcome value :=
  fun _ c =>
    match c with
    | AmqpConnect _ _ => Normal (VHandle 0)
    | Method _ name _ =>
        if String.eqb name "createChannel" then Throw (VError "channel refused")
        else if String.eqb name "close" then Throw (VError "close failed")
        else Normal VUndef
    end.

(** Runtime helpers for runs that never reach them. *)
Definition no_JSON : list (gmap string value) -> value -> outcome value :=
  fun _ _ => Normal VUndef.
Definition no_ToString : value -> string := fun _ => "".

(** An application as [new SlimRabbit('test_queue')] leaves it, with one
    middleware and one error listener registered. *)
Definition unconnected_app : App :=
  mkApp (VStr "test_queue") (VRef 0) (VRef 1) ∅ [VFun "handler"] None
        VUndef VUndef VUndef VUndef
        (<["consumer:error" := ["log"]]> ∅).
Definition unconnected_state : state unit :=
  mkState unconnected_app [∅; ∅] [] [] [] tt.

(** The same application once connected; [app.context] is the default,
    empty object. *)
Definition connected_app : App :=
  mkApp (VStr "test_queue") VNull VNull ∅ [VFun "handler"] None
        (VHandle 0) (VHandle 3) (VHandle 7) (VStr "ctag")
        (<["consumer:error" := ["log"]]> ∅).
Definition connected_state : state unit :=
  mkState connected_app [] [] [] [] tt.

(** An [app.context] with a colliding key and a new one, and one with a
    key that names a delegated getter. *)
Definition shadowing_app : App :=
  mkApp (VStr "q") VNull VNull
        (<["message" := VStr "shadow"]> (<["db" := VNum 1]> ∅))
        [] None VUndef VUndef VUndef VUndef ∅.
Definition shadowing_state : state unit :=
  mkState shadowing_app [] [] [] [] tt.
Definition fields_app : App :=
  mkApp (VStr "q") VNull VNull (<["fields" := VNum 1]> ∅)
        [] None VUndef VUndef VUndef VUndef ∅.
Definition fields_state : state unit :=
  mkState fields_app [] [] [] [] tt.

(** Handlers and listeners: idle ones, a handler that throws, a listener
    that keeps what it is given, one that throws. *)
Definition idle_code : fid -> value -> hprog unit := fun _ _ => Done.
Definition idle_listener
  : fid -> list value -> state unit -> outcome unit * unit :=
  fun _ _ _ => (Normal tt, tt).
Definition throwing_handler : fid -> value -> hprog (list value) :=
  fun _ _ => Fail (VError "boom").
Definition keeping_listener
  : fid -> list value -> state (list value) -> outcome unit * list value :=
  fun _ args s => (Normal tt, user s ++ args).
Definition throwing_listener
  : fid -> list value -> state (list value) -> outcome unit * list value :=
  fun _ _ s => (Throw (VError "listener failed"), user s).
Definition keeping_state : state (list value) :=
  mkState connected_app [] [] [] [] [].

(** A handler that puts [null] in the [onerror] of the Context it is
    handed, and throws. *)
Definition overwriting_handler : fid -> value -> hprog (list value) :=
  fun _ ctx =>
    match ctx with
    | VRef l => Store l "onerror" VNull (Fail (VError "boom"))
    | _ => Fail (VError "boom")
    end.


(** Three recorders named by their position. *)
Definition recorders_code : fid -> value -> hprog (list event) :=
  fun f _ =>
    if String.eqb f "h0" then recorder 0
    else if String.eqb f "h1" then recorder 1
    else recorder 2.
Definition silent_listener
  : fid -> list value -> state (list event) -> outcome unit * list event :=
  fun _ _ s => (Normal tt, user s).
Definition three_recorders_app : App :=
  mkApp (VStr "test_queue") VNull VNull ∅
        [VFun "h0"; VFun "h1"; VFun "h2"] None
        (VHandle 0) (VHandle 3) (VHandle 7) (VStr "ctag")
        (<["consumer:error" := ["log"]]> ∅).
Definition three_recorders_state : state (list event) :=
  mkState three_recorders_app [] [] [] [] [].



(** ** Vocabulary of the further properties *)

(** What the constructor's checks refuse; an omitted option set is [{}]. *)
Definition constructor_args_refused (queueName queueOpts consumeOpts : value)
  : Prop :=
  typeof queueName <> TString \/
  (queueOpts <> VUndef /\ typeof queueOpts <> TObject) \/
  (consumeOpts <> VUndef /\ typeof consumeOpts <> TObject).

(** The calls of [close()]: [close()] on each handle that is set, the
    consumer channel first, the connection last. *)
Definition close_calls (a : App) : list call :=
  map (fun t => Method t "close" [])
      (List.filter truthy [consumerChannel a; publisherChannel a; connection a]).

(** A call of [prefetch] on some object. *)
Definition is_prefetch (c : call) : bool :=
  match c with
  | Method _ name _ => String.eqb name "prefetch"
  | AmqpConnect _ _ => false
  end.

(** What the application was built with and what was registered on it by
    assignment: the queue name and options, [app.context], the middleware
    and [prefetchOpts].  (The listeners are left out: Node removes a
    listener registered with [once] when its event is emitted.) *)
Definition same_registrations (a a' : App) : Prop :=
  queueName a' = queueName a /\ queueOpts a' = queueOpts a /\
  consumeOpts a' = consumeOpts a /\ context a' = context a /\
  middlewares a' = middlewares a /\ prefetchOpts a' = prefetchOpts a.

(** The calls of a [connect] whose setup goes through, as the application
    holds the handles afterwards; [prefetch] is there when [prefetchOpts]
    is set. *)
Definition setup_calls (url socketOpts : value) (a : App) : list call :=
  [ AmqpConnect url socketOpts;
    Method (connection a) "on" [VStr "error"; VFun "connection:error"];
    Method (connection a) "on" [VStr "close"; VFun "connection:close"];
    Method (connection a) "createChannel" [];
    Method (consumerChannel a) "on"
           [VStr "error"; VFun "consumer-channel:error"];
    Method (consumerChannel a) "on"
           [VStr "close"; VFun "consumer-channel:close"] ] ++
  match prefetchOpts a with
  | Some (count, global) =>
      [Method (consumerChannel a) "prefetch" [count; global]]
  | None => []
  end ++
  [ Method (connection a) "createChannel" [];
    Method (publisherChannel a) "on"
           [VStr "error"; VFun "publisher-channel:error"];
    Method (publisherChannel a) "on"
           [VStr "close"; VFun "publisher-channel:close"];
    Method (consumerChannel a) "assertQueue" [queueName a; queueOpts a];
    Method (consumerChannel a) "consume"
           [queueName a; VFun "messageHandler"; consumeOpts a] ].

(** The events of such a [connect], in order. *)
Definition setup_events (a : App) : list (string * list value) :=
  [ ("connection:created", [connection a]);
    ("consumer-channel:created", [consumerChannel a]);
    ("publisher-channel:created", [publisherChannel a]);
    ("consumer:listen", [queueName a; consumerTag a]) ].

(** The names of the events the application emits. *)
Definition event_names : list string :=
  [ "connection:created"; "connection:error"; "connection:close";
    "consumer-channel:created"; "consumer-channel:error";
    "consumer-channel:close";
    "publisher-channel:created"; "publisher-channel:error";
    "publisher-channel:close";
    "consumer:listen"; "consumer:error" ].

(** From [s] to [s'], events were only added, all of them named in
    [names]. *)
Definition emits_only {U : Type} (names : list string) (s s' : state U)
  : Prop :=
  exists l, emitted s' = emitted s ++ l /\
            Forall (fun ev => ev.1 ∈ names) l.

(** Every registered middleware is a function. *)
Definition functions_only (a : App) : Prop :=
  forallb (fun v => bool_decide (typeof v = TFunction)) (middlewares a) = true.

(** A listener of [connection:created] that throws. *)
Definition created_app : App :=
  mkApp (VStr "test_queue") (VRef 0) (VRef 1) ∅ [VFun "handler"] None
        VUndef VUndef VUndef VUndef
        (<["connection:created" := ["boom"]]>
           (<["consumer:error" := ["log"]]> ∅)).
Definition created_state : state unit :=
  mkState created_app [∅; ∅] [] [] [] tt.
Definition failing_listener
  : fid -> list value -> state unit -> outcome unit * unit :=
  fun _ _ _ => (Throw (VError "listener failed"), tt).

(** The bytes [bufferFrom] gives for a Buffer or a string. *)
Definition content_bytes (content : value) : option (list Byte.byte) :=
  match content with
  | VBuf b => Some b
  | VStr text => Some (String.list_byte_of_string text)
  | _ => None
  end.

(** A connected application with a message on the heap: object 0 is the
    message, object 1 its [fields]. *)
Definition delivery_state : state unit :=
  mkState connected_app
    [ <["fields" := VRef 1]> (<["content" := VBuf []]> ∅);
      <["deliveryTag" := VNum 1]> ∅ ] [] [] [] tt.

(** An [app.context] that supplies the static helper as [bufferFrom]. *)
Definition patched_app : App :=
  mkApp (VStr "test_queue") VNull VNull
        (<["bufferFrom" := VFun "Context.bufferFrom"]> ∅)
        [VFun "handler"] None
        (VHandle 0) (VHandle 3) (VHandle 7) (VStr "ctag")
        (<["consumer:error" := ["log"]]> ∅).
Definition patched_state : state unit :=
  mkState patched_app [] [] [] [] tt.


(** ** Shapes used in the proofs *)

(** A relation between the state before and after, kept by a
    computation. *)
Definition keeps {U A : Type} (R : state U -> state U -> Prop) (m : M U A)
  : Prop :=
  forall s, R s (m s).2.

(** While [prefetchOpts] is unset it stays unset, and the calls made are
    no calls of [prefetch]. *)
Definition without_prefetch {U : Type} (s s' : state U) : Prop :=
  prefetchOpts (app s) = None ->
  prefetchOpts (app s') = None /\
  exists l, calls s' = calls s ++ l /\
            forallb (fun c => negb (is_prefetch c)) l = true.

(** One step of [close]: [if (this.x) await this.x.close()]. *)
Definition close_step {U : Type}
    (extern : list call -> call -> outcome value) (t : value) : M U value :=
  if truthy t then call_method extern t "close" [] else ret VUndef.

(** From [s] to [s']: these calls, these events, this change of the
    application. *)
Definition step {U : Type} (s s' : state U) (cs : list call)
    (es : list (string * list value)) (f : App -> App) : Prop :=
  calls s' = calls s ++ cs /\ emitted s' = emitted s ++ es /\
  app s' = f (app s).

(** * Properties *)

(** ** Context construction *)

Lemma Object_assign_union (target source : gmap string value) :
  Object_assign target source = source ∪ target.
Proof.
  unfold Object_assign.
  apply (map_fold_weak_ind (fun acc m => acc = m ∪ target)).
  - by rewrite (left_id_L ∅ (∪)).
  - intros k v m acc _ ->. by rewrite insert_union_l.
Qed.


Lemma plain_context_not_refused (a : App) :
  plain_context a -> refused_key (context a) = false.
Proof.
  intros H. apply not_true_is_false. unfold refused_key.
  rewrite existsb_exists. intros (k & Hin & Hk).
  apply bool_decide_eq_true in Hk.
  rewrite H in Hk; [by destruct Hk|].
  apply elem_of_app. left. apply elem_of_app. left.
  by apply list_elem_of_In.
Qed.

Section ContextFacts.
Context {U : Type}.


Lemma new_Context_eq (message : value) (s : state U) :
  plain_context (app s) ->
  new_Context message s =
    (Normal (VRef (length (heap s))),
     set_heap
       (heap s ++
        [Context_own (app s) message (VRef (S (length (heap s)))); ∅]) s).
Proof.
  intros H. unfold new_Context.
  rewrite plain_context_not_refused by exact H.
  by rewrite Object_assign_union.
Qed.

Lemma own_props_new_Context (message : value) (s : state U) :
  plain_context (app s) ->
  own_props (VRef (length (heap s))) (new_Context message s).2 =
    Context_own (app s) message (VRef (S (length (heap s)))).
Proof.
  intros H. rewrite new_Context_eq by exact H. simpl.
  rewrite lookup_app_r by lia. by rewrite Nat.sub_diag.
Qed.

(** Building a Context touches the heap only. *)
Lemma new_Context_frame (message : value) (s : state U) :
  app (new_Context message s).2 = app s /\
  emitted (new_Context message s).2 = emitted s /\
  calls (new_Context message s).2 = calls s.
Proof. unfold new_Context. by destruct (refused_key _). Qed.

Lemma new_Context_user (message : value) (s : state U) :
  user (new_Context message s).2 = user s.
Proof. unfold new_Context. by destruct (refused_key _). Qed.

End ContextFacts.

(** C10 (as the code has it).  For an [app.context] that names no
    accessor of the prototype chain, the constructor copies every own
    property of [app.context] onto the new Context after its own fields: a
    key of [app.context] always wins, also over [message], [state],
    [queueName] or [consumerChannel]; a field whose name [app.context] does
    not use keeps the constructor's value, so without a collision the
    Context holds the message it was built with and a fresh, empty state
    object. *)
Theorem new_Context_app_context_overrides {U : Type}
    (message : value) (s : state U) :
  plain_context (app s) ->
  let this := length (heap s) in
  let st := S this in
  let s' := (new_Context message s).2 in
  exists own,
    (new_Context message s).1 = Normal (VRef this) /\
    heap s !! this = None /\ heap s' !! this = Some own /\
    (forall k v, context (app s) !! k = Some v -> own !! k = Some v) /\
    (forall k, context (app s) !! k = None ->
       own !! k =
         assign_fields ∅ (Context_fields (app s) message (VRef st)) !! k) /\
    (context (app s) !! "message" = None -> own !! "message" = Some message) /\
    (context (app s) !! "state" = None ->
       own !! "state" = Some (VRef st) /\
       heap s !! st = None /\ heap s' !! st = Some ∅).
Proof.
  intros Hplain this st s'.
  exists (Context_own (app s) message (VRef st)).
  subst s'. rewrite new_Context_eq by exact Hplain. simpl.
  assert (Hthis : (heap s ++ [Context_own (app s) message (VRef st); ∅]) !! this
                  = Some (Context_own (app s) message (VRef st))).
  { subst this. rewrite lookup_app_r by lia. by rewrite Nat.sub_diag. }
  assert (Hst : (heap s ++ [Context_own (app s) message (VRef st); ∅]) !! st
                = Some ∅).
  { subst st this. rewrite lookup_app_r by lia.
    by replace (S (length (heap s)) - length (heap s)) with 1 by lia. }
  assert (Hcopy : forall k v, context (app s) !! k = Some v ->
                    Context_own (app s) message (VRef st) !! k = Some v).
  { intros k v Hk. unfold Context_own. by apply lookup_union_Some_l. }
  assert (Hkeep : forall k, context (app s) !! k = None ->
            Context_own (app s) message (VRef st) !! k
            = assign_fields ∅ (Context_fields (app s) message (VRef st)) !! k).
  { intros k Hk. unfold Context_own. by rewrite lookup_union_r. }
  repeat split; try done.
  - apply lookup_ge_None_2. subst this. lia.
  - intros Hk. by rewrite Hkeep.
  - by rewrite Hkeep.
  - apply lookup_ge_None_2. subst st this. lia.
Qed.


Lemma plain_context_shadowing_app : plain_context shadowing_app.
Proof.
  intros k Hk. unfold delegated_accessors, delegated_getters in Hk.
  simpl in Hk.
  repeat (apply elem_of_cons in Hk as [-> | Hk]; [reflexivity|]).
  by apply elem_of_nil in Hk.
Defined.

Lemma plain_context_connected_app : plain_context connected_app.
Proof. intros k _. reflexivity. Defined.

Lemma new_Context_app_context_overrides_witness :
  exists own,
    (new_Context (VStr "m") shadowing_state).1 = Normal (VRef 0) /\
    heap (new_Context (VStr "m") shadowing_state).2 !! 0 = Some own /\
    own !! "message" = Some (VStr "shadow") /\
    own !! "db" = Some (VNum 1) /\
    own !! "state" = Some (VRef 1).
Proof.
  destruct (new_Context_app_context_overrides (VStr "m") shadowing_state
              plain_context_shadowing_app)
    as (own & H1 & _ & H3 & H4 & _ & _ & H7).
  exists own.
  split; [exact H1|]. split; [exact H3|].
  split; [apply H4; reflexivity|].
  split; [apply H4; reflexivity|].
  apply H7. reflexivity.
Defined.

(** C10 (as stated) fails: a key of [app.context] that names a delegated
    getter is not copied; the constructor throws and no Context is built. *)
Lemma new_Context_refuses_getter_key :
  context fields_app !! "fields" = Some (VNum 1) /\
  new_Context (VStr "m") fields_state =
    (Throw (VTypeError "Cannot set property which has only a getter"),
     fields_state).
Proof. split; reflexivity. Qed.

(** ** publish and sendToQueue *)

Section PublishFacts.
Context {U : Type}.
Variable extern : list call -> call -> outcome value.
Variable JSON_stringify : list (gmap string value) -> value -> outcome value.
Variable ToString : value -> string.


Lemma with_default_object_calls (options : value) (s : state U) :
  calls (with_default_object options s).2 = calls s.
Proof. by destruct options. Qed.

Lemma with_default_object_typeof (options : value) (s : state U) :
  typeof (with_default_object options s).1 = TObject <->
  options = VUndef \/ typeof options = TObject.
Proof. destruct options; simpl; split; intros; try tauto; try done; by destruct H. Qed.

Lemma default_bind {A} (options : value) (k : value -> M U A) (s : state U) :
  bind (match options with VUndef => alloc ∅ | _ => ret options end) k s =
  k (with_default_object options s).1 (with_default_object options s).2.
Proof. by destruct options. Qed.

(** Allocation does not give an object a [bufferFrom] it did not have. *)
Lemma own_props_bufferFrom_default (this options : value) (s : state U) :
  own_props this s !! "bufferFrom" = None ->
  own_props this (with_default_object options s).2 !! "bufferFrom" = None.
Proof.
  intros H. destruct options; try exact H. simpl.
  destruct this; try exact H. simpl in *.
  destruct (decide (l < length (heap s))) as [Hl | Hl].
  - by rewrite lookup_app_l.
  - rewrite lookup_app_r by lia.
    by destruct (l - length (heap s)) as [|[|?]].
Qed.

Lemma this_bufferFrom_missing (this content : value) (s : state U) :
  own_props this s !! "bufferFrom" = None ->
  this_bufferFrom extern JSON_stringify ToString this content s =
    (Throw (VTypeError "this.bufferFrom is not a function"), s).
Proof.
  intros H. unfold this_bufferFrom, bind, get, Context_get. by rewrite H.
Qed.



Lemma publish_refused (this exchange routingKey content options : value)
    (s : state U) :
  publish_args_refused exchange routingKey content options ->
  exists msg s',
    Context_publish extern JSON_stringify ToString
      this exchange routingKey content options s
    = (Throw (VTypeError msg), s') /\ calls s' = calls s.
Proof.
  intros H. unfold Context_publish. rewrite default_bind.
  pose proof (with_default_object_calls options s) as Hc.
  pose proof (with_default_object_typeof options s) as Ht.
  destruct (with_default_object options s) as [o s1]. simpl in *.
  unfold throw.
  destruct (bool_decide (typeof exchange = TString)) eqn:E1; simpl; [|eauto].
  destruct (bool_decide (typeof routingKey = TString)) eqn:E2; simpl; [|eauto].
  destruct (content_accepted content) eqn:E3; simpl; [|eauto].
  destruct (bool_decide (typeof o = TObject)) eqn:E4; simpl; [|eauto].
  exfalso.
  apply bool_decide_eq_true_1 in E1, E2, E4.
  destruct H as [H | [H | [H | [H1 H2]]]]; try congruence.
  apply Ht in E4 as [? | ?]; congruence.
Qed.

Lemma sendToQueue_refused (this queue content options : value) (s : state U) :
  sendToQueue_args_refused queue content options ->
  exists msg s',
    Context_sendToQueue extern JSON_stringify ToString
      this queue content options s
    = (Throw (VTypeError msg), s') /\ calls s' = calls s.
Proof.
  intros H. unfold Context_sendToQueue. rewrite default_bind.
  pose proof (with_default_object_calls options s) as Hc.
  pose proof (with_default_object_typeof options s) as Ht.
  destruct (with_default_object options s) as [o s1]. simpl in *.
  unfold throw.
  destruct (bool_decide (typeof queue = TString)) eqn:E1; simpl; [|eauto].
  destruct (content_accepted content) eqn:E3; simpl; [|eauto].
  destruct (bool_decide (typeof o = TObject)) eqn:E4; simpl; [|eauto].
  exfalso.
  apply bool_decide_eq_true_1 in E1, E4.
  destruct H as [H | [H | [H1 H2]]]; try congruence.
  apply Ht in E4 as [? | ?]; congruence.
Qed.

(** Without a [bufferFrom] own property the instance methods stop at
    [this.bufferFrom(content)], whatever the arguments. *)
Lemma publish_stops_before_transport
    (this exchange routingKey content options : value) (s : state U) :
  own_props this s !! "bufferFrom" = None ->
  exists msg s',
    Context_publish extern JSON_stringify ToString
      this exchange routingKey content options s
    = (Throw (VTypeError msg), s') /\ calls s' = calls s.
Proof.
  intros H. unfold Context_publish. rewrite default_bind.
  pose proof (with_default_object_calls options s) as Hc.
  pose proof (own_props_bufferFrom_default this options s H) as Hb.
  destruct (with_default_object options s) as [o s1]. simpl in *.
  unfold throw.
  destruct (bool_decide (typeof exchange = TString)); simpl; [|eauto].
  destruct (bool_decide (typeof routingKey = TString)); simpl; [|eauto].
  destruct (content_accepted content); simpl; [|eauto].
  destruct (bool_decide (typeof o = TObject)); simpl; [|eauto].
  unfold bind at 1. rewrite this_bufferFrom_missing by exact Hb. eauto.
Qed.

Lemma sendToQueue_stops_before_transport
    (this queue content options : value) (s : state U) :
  own_props this s !! "bufferFrom" = None ->
  exists msg s',
    Context_sendToQueue extern JSON_stringify ToString
      this queue content options s
    = (Throw (VTypeError msg), s') /\ calls s' = calls s.
Proof.
  intros H. unfold Context_sendToQueue. rewrite default_bind.
  pose proof (with_default_object_calls options s) as Hc.
  pose proof (own_props_bufferFrom_default this options s H) as Hb.
  destruct (with_default_object options s) as [o s1]. simpl in *.
  unfold throw.
  destruct (bool_decide (typeof queue = TString)); simpl; [|eauto].
  destruct (content_accepted content); simpl; [|eauto].
  destruct (bool_decide (typeof o = TObject)); simpl; [|eauto].
  unfold bind at 1. rewrite this_bufferFrom_missing by exact Hb. eauto.
Qed.

End PublishFacts.


(** C7. [publish] and [sendToQueue] fail with a TypeError, having made no
    call to the transport, whenever the exchange, the routing key or the
    queue is not a string, the content is neither a string, an object nor a
    Buffer, or the options (an omitted one is [{}]) are not an object; a
    function as content is such a case. *)
Theorem publish_sendToQueue_check_argument_types {U : Type}
    (extern : list call -> call -> outcome value)
    (JSON_stringify : list (gmap string value) -> value -> outcome value)
    (ToString : value -> string)
    (this : value) (s : state U) :
  (forall exchange routingKey content options,
     publish_args_refused exchange routingKey content options ->
     exists msg s',
       Context_publish extern JSON_stringify ToString
         this exchange routingKey content options s
       = (Throw (VTypeError msg), s') /\ calls s' = calls s)
  /\
  (forall queue content options,
     sendToQueue_args_refused queue content options ->
     exists msg s',
       Context_sendToQueue extern JSON_stringify ToString
         this queue content options s
       = (Throw (VTypeError msg), s') /\ calls s' = calls s)
  /\
  (forall f exchange routingKey queue options,
     (exists msg s',
        Context_publish extern JSON_stringify ToString
          this exchange routingKey (VFun f) options s
        = (Throw (VTypeError msg), s') /\ calls s' = calls s) /\
     (exists msg s',
        Context_sendToQueue extern JSON_stringify ToString
          this queue (VFun f) options s
        = (Throw (VTypeError msg), s') /\ calls s' = calls s)).
Proof.
  split; [|split].
  - intros. by apply publish_refused.
  - intros. by apply sendToQueue_refused.
  - intros f exchange routingKey queue options. split.
    + apply publish_refused. right; right; left. reflexivity.
    + apply sendToQueue_refused. right; left. reflexivity.
Qed.

Lemma publish_sendToQueue_check_argument_types_witness :
  (exists msg s',
     Context_publish obliging_transport no_JSON no_ToString
       (VRef 0) (VNum 7) (VStr "rk") (VStr "hello") VUndef connected_state
     = (Throw (VTypeError msg), s') /\ calls s' = calls connected_state)
  /\
  (exists msg s',
     Context_sendToQueue obliging_transport no_JSON no_ToString
       (VRef 0) (VStr "q") (VStr "hello") (VStr "opts") connected_state
     = (Throw (VTypeError msg), s') /\ calls s' = calls connected_state).
Proof.
  pose proof (publish_sendToQueue_check_argument_types
                obliging_transport no_JSON no_ToString (VRef 0) connected_state)
    as (Hp & Hs & _).
  split.
  - apply Hp. left. simpl. discriminate.
  - apply Hs. right; right. split; simpl; discriminate.
Defined.

(** C1 (what the code does instead).  [bufferFrom] is a static method, so
    [this.bufferFrom] is undefined on an instance unless [app.context]
    supplies one: on every Context of such an application [publish] and
    [sendToQueue] fail with a TypeError for every argument list, and the
    publisher channel is never called. *)
Theorem publish_sendToQueue_stop_at_bufferFrom {U : Type}
    (extern : list call -> call -> outcome value)
    (JSON_stringify : list (gmap string value) -> value -> outcome value)
    (ToString : value -> string)
    (message : value) (s : state U) :
  plain_context (app s) ->
  context (app s) !! "bufferFrom" = None ->
  let ctx := VRef (length (heap s)) in
  let s1 := (new_Context message s).2 in
  (new_Context message s).1 = Normal ctx /\
  (forall exchange routingKey content options,
     exists msg s',
       Context_publish extern JSON_stringify ToString
         ctx exchange routingKey content options s1
       = (Throw (VTypeError msg), s') /\ calls s' = calls s1) /\
  (forall queue content options,
     exists msg s',
       Context_sendToQueue extern JSON_stringify ToString
         ctx queue content options s1
       = (Throw (VTypeError msg), s') /\ calls s' = calls s1).
Proof.
  intros Hplain H ctx s1.
  assert (Hb : own_props ctx s1 !! "bufferFrom" = None).
  { subst ctx s1. rewrite own_props_new_Context by exact Hplain.
    unfold Context_own.
    apply lookup_union_None. split; [exact H | reflexivity]. }
  split; [by rewrite new_Context_eq|]. split; intros.
  - by apply publish_stops_before_transport.
  - by apply sendToQueue_stops_before_transport.
Qed.

Lemma publish_sendToQueue_stop_at_bufferFrom_witness :
  (exists msg s',
     Context_publish obliging_transport no_JSON no_ToString
       (VRef 0) (VStr "ex") (VStr "rk") (VStr "hello") VUndef
       (new_Context (VStr "m") connected_state).2
     = (Throw (VTypeError msg), s') /\
     calls s' = calls (new_Context (VStr "m") connected_state).2)
  /\
  (Context_publish obliging_transport no_JSON no_ToString
     (VRef 0) (VStr "ex") (VStr "rk") (VStr "hello") VUndef
     (new_Context (VStr "m") connected_state).2).1
  = Throw (VTypeError "this.bufferFrom is not a function")
  /\
  (Context_sendToQueue obliging_transport no_JSON no_ToString
     (VRef 0) (VStr "q") (VBuf []) VUndef
     (new_Context (VStr "m") connected_state).2).1
  = Throw (VTypeError "this.bufferFrom is not a function").
Proof.
  split; [|split; reflexivity].
  apply (publish_sendToQueue_stop_at_bufferFrom
           obliging_transport no_JSON no_ToString (VStr "m") connected_state).
  - exact plain_context_connected_app.
  - reflexivity.
Defined.

(** ** The composed handler *)

Section ChainFacts.
Context {U : Type}.
Variable extern : list call -> call -> outcome value.
Variable code : fid -> value -> hprog U.







Lemma function_ids_VFun (fs : list fid) : function_ids (map VFun fs) = fs.
Proof. induction fs as [|f fs IH]; simpl; [done | by rewrite IH]. Qed.

End ChainFacts.

(** ** The dispatch loop *)

Section DispatchFacts.
Context {U : Type}.
Variable extern : list call -> call -> outcome value.
Variable listener : fid -> list value -> state U -> outcome unit * U.
Variable code : fid -> value -> hprog U.


Lemma run_listeners_return (ls : list fid) (args : list value) :
  (forall l, l ∈ ls ->
     forall args (s : state U), (listener l args s).1 = Normal tt) ->
  forall s, exists u,
    run_listeners listener ls args s = (Normal tt, set_user u s).
Proof.
  induction ls as [|l rest IH]; intros Hls s; simpl.
  - exists (user s). by destruct s.
  - unfold bind.
    pose proof (Hls l (list_elem_of_here _ _) args s) as Hl.
    destruct (listener l args s) as [o u]. simpl in Hl. subst o.
    destruct (IH (fun l' Hl' => Hls l' (list_elem_of_further _ _ _ Hl'))
                 (set_user u s)) as [u' Hu'].
    exists u'. rewrite Hu'. reflexivity.
Qed.

Lemma emit_return (name : string) (args : list value) (s : state U) :
  listeners_return listener (app s) name ->
  exists b u,
    emit listener name args s =
      (Normal (VBool b), set_user u (add_emitted (name, args) s)).
Proof.
  intros H. unfold emit, bind, get, modify, ret.
  destruct (run_listeners_return (default [] (listeners (app s) !! name)) args H
              (add_emitted (name, args) s)) as [u Hu].
  rewrite Hu. eauto.
Qed.

(** The prototype's [onerror] is the one called, and on the application,
    when [app.context] shadows neither [onerror] nor [app]. *)
Lemma call_onerror_emits (ctx err : value) (s : state U) :
  own_props ctx s !! "onerror" = None ->
  own_props ctx s !! "app" = Some VApp ->
  listeners_return listener (app s) "consumer:error" ->
  exists u,
    call_onerror extern listener ctx err s =
      (Normal VUndef,
       set_user u (add_emitted ("consumer:error", [err; ctx]) s)).
Proof.
  intros H1 H2 H3.
  unfold call_onerror, bind at 1, get. rewrite H1.
  unfold Context_onerror, bind at 1, get, Context_get. rewrite H2.
  destruct (emit_return "consumer:error" [err; ctx] s H3) as (b & u & Hu).
  unfold bind. rewrite Hu. eauto.
Qed.

Lemma on_message_unfold (fn : value -> M U unit) (message : value)
    (s : state U) :
  plain_context (app s) ->
  on_message extern listener fn message s =
    match fn (VRef (length (heap s))) (new_Context message s).2 with
    | (Normal _, s2) => (Normal VUndef, s2)
    | (Throw e, s2) =>
        match call_onerror extern listener (VRef (length (heap s))) e s2 with
        | (Normal _, s3) => (Normal VUndef, s3)
        | (Throw e', s3) => (Throw e', s3)
        end
    end.
Proof.
  intros H. unfold on_message, bind, try_catch.
  rewrite new_Context_eq by exact H. simpl.
  destruct (fn _ _) as [[[]|e] s2]; reflexivity.
Qed.

Lemma run_listeners_state (ls : list fid) (args : list value) :
  forall (s s' : state U) o,
    run_listeners listener ls args s = (o, s') ->
    exists u, s' = set_user u s.
Proof.
  induction ls as [|l rest IH]; intros s s' o H; simpl in H.
  - injection H as _ <-. exists (user s). by destruct s.
  - unfold bind in H. destruct (listener l args s) as [[[]|e] u].
    + apply IH in H as [u' ->]. by exists u'.
    + injection H as _ <-. by exists u.
Qed.

Lemma emit_state (name : string) (args : list value) (s s' : state U) o :
  emit listener name args s = (o, s') ->
  exists u, s' = set_user u (add_emitted (name, args) s).
Proof.
  unfold emit, bind, get, modify, ret. simpl.
  destruct (run_listeners _ _ _ _) as [[[]|e] s1] eqn:E; intros [= _ <-];
    by apply run_listeners_state in E.
Qed.

(** The prototype's [onerror], called on the application, adds one event,
    whatever the listeners do. *)
Lemma call_onerror_state (ctx err : value) (s : state U) :
  own_props ctx s !! "onerror" = None ->
  own_props ctx s !! "app" = Some VApp ->
  exists o u,
    call_onerror extern listener ctx err s =
      (o, set_user u (add_emitted ("consumer:error", [err; ctx]) s)).
Proof.
  intros H1 H2.
  unfold call_onerror, bind at 1, get. rewrite H1.
  unfold Context_onerror, bind at 1, get, Context_get. rewrite H2.
  unfold bind.
  destruct (emit listener "consumer:error" [err; ctx] s) as [o s'] eqn:E.
  apply emit_state in E as [u ->]. destruct o; eauto.
Qed.

(** A delivery whose handler fails, on a Context that still has the
    prototype's [onerror] and the application as its [app]. *)
Lemma on_message_failure (fn : value -> M U unit) (message e : value)
    (s s2 : state U) :
  plain_context (app s) ->
  fn (VRef (length (heap s))) (new_Context message s).2 = (Throw e, s2) ->
  own_props (VRef (length (heap s))) s2 !! "onerror" = None ->
  own_props (VRef (length (heap s))) s2 !! "app" = Some VApp ->
  (exists o u,
     on_message extern listener fn message s =
       (o, set_user u
             (add_emitted ("consumer:error", [e; VRef (length (heap s))])
                          s2))) /\
  (listeners_return listener (app s2) "consumer:error" ->
   exists u,
     on_message extern listener fn message s =
       (Normal VUndef,
        set_user u
          (add_emitted ("consumer:error", [e; VRef (length (heap s))]) s2))).
Proof.
  intros Hplain Hfn Hon Happ.
  rewrite on_message_unfold by exact Hplain. rewrite Hfn. split.
  - destruct (call_onerror_state (VRef (length (heap s))) e s2 Hon Happ)
      as (o & u & ->).
    destruct o; eauto.
  - intros Hls.
    destruct (call_onerror_emits (VRef (length (heap s))) e s2 Hon Happ Hls)
      as [u ->].
    eauto.
Qed.

End DispatchFacts.

(** C3 (as the code has it).  For every delivered message, when
    [app.context] names no accessor of the prototype chain, the callback
    builds one Context and runs the composed handler on it once; when the
    handler completes, so does the callback; when the handler fails, the
    callback evaluates [context.onerror(err)] on that Context once, with
    the error, and does nothing else.  If the Context then has no
    [onerror] of its own and still has the application as its [app]
    (neither [app.context] nor a handler has replaced them), that call
    emits one ['consumer:error'] with the error and the Context; and if
    moreover no ['consumer:error'] listener throws, the callback returns
    normally: [onerror] has no [catch] of its own. *)
Theorem on_message_reports_failure_once {U : Type}
    (extern : list call -> call -> outcome value)
    (listener : fid -> list value -> state U -> outcome unit * U)
    (fn : value -> M U unit) (message : value) (s : state U) :
  plain_context (app s) ->
  let ctx := VRef (length (heap s)) in
  let s1 := (new_Context message s).2 in
  (new_Context message s).1 = Normal ctx /\
  on_message extern listener fn message s =
    match fn ctx s1 with
    | (Normal _, s2) => (Normal VUndef, s2)
    | (Throw e, s2) =>
        bind (call_onerror extern listener ctx e) (fun _ => ret VUndef) s2
    end /\
  forall e s2,
    fn ctx s1 = (Throw e, s2) ->
    own_props ctx s2 !! "onerror" = None ->
    own_props ctx s2 !! "app" = Some VApp ->
    (exists o u,
       on_message extern listener fn message s =
         (o, set_user u (add_emitted ("consumer:error", [e; ctx]) s2))) /\
    (listeners_return listener (app s2) "consumer:error" ->
     exists u,
       on_message extern listener fn message s =
         (Normal VUndef,
          set_user u (add_emitted ("consumer:error", [e; ctx]) s2))).
Proof.
  intros Hplain ctx s1.
  split; [by rewrite new_Context_eq|]. split.
  - rewrite on_message_unfold by exact Hplain. fold ctx s1.
    destruct (fn ctx s1) as [[[]|e] s2]; [reflexivity|].
    unfold bind. by destruct (call_onerror _ _ _ _ _) as [[?|?] ?].
  - intros e s2 Hfn Hon Happ.
    exact (on_message_failure extern listener fn message e s s2
             Hplain Hfn Hon Happ).
Qed.

Lemma on_message_reports_failure_once_witness :
  on_message obliging_transport keeping_listener
    (composed obliging_transport throwing_handler ["handler"])
    (VStr "m") keeping_state
  = (Normal VUndef,
     mkState connected_app
       [Context_own connected_app (VStr "m") (VRef 1); ∅] []
       [("consumer:error", [VError "boom"; VRef 0])] []
       [VError "boom"; VRef 0]).
Proof.
  destruct (on_message_reports_failure_once
              obliging_transport keeping_listener
              (composed obliging_transport throwing_handler ["handler"])
              (VStr "m") keeping_state plain_context_connected_app)
    as (_ & _ & H).
  destruct (H (VError "boom") (new_Context (VStr "m") keeping_state).2
              eq_refl eq_refl eq_refl) as [_ Hn].
  destruct (Hn (fun _ _ _ _ => eq_refl)) as [u Hu].
  vm_compute. vm_compute in Hu. injection Hu as <-. reflexivity.
Defined.


(** C3 (as stated) fails: with a listener that throws, [onerror] throws and
    the delivery callback rejects; and so it does, whatever the listeners,
    when a handler has put [null] in the Context's [onerror] before it
    fails. *)
Lemma on_message_can_reject :
  compose obliging_transport throwing_handler (middlewares connected_app)
    = Normal (composed obliging_transport throwing_handler ["handler"]) /\
  (call_onerror obliging_transport throwing_listener
     (VRef 0) (VError "boom") (new_Context (VStr "m") keeping_state).2).1
    = Throw (VError "listener failed") /\
  (on_message obliging_transport throwing_listener
     (composed obliging_transport throwing_handler ["handler"])
     (VStr "m") keeping_state).1
    = Throw (VError "listener failed") /\
  (on_message obliging_transport keeping_listener
     (composed obliging_transport overwriting_handler ["handler"])
     (VStr "m") keeping_state).1
    = Throw (VTypeError "context.onerror is not a function").
Proof. split; [|split; [|split]]; reflexivity. Qed.

(** ** Onion order *)


Section OnionFacts.
Variable extern : list call -> call -> outcome value.
Variable code : fid -> value -> hprog (list event).

Lemma set_user_same (s : state (list event)) : set_user (user s) s = s.
Proof. by destruct s. Qed.

Lemma onion_S (i n : nat) :
  onion i (S n) = Entry i :: onion (S i) n ++ [Exit i].
Proof.
  unfold onion. simpl. rewrite reverse_cons, map_app. simpl.
  by rewrite <- app_assoc.
Qed.

Lemma dispatch_recorders (ctx : value) (fs : list fid) :
  forall i idx s,
    (idx < Z.of_nat i)%Z ->
    (forall j f, fs !! j = Some f -> code f ctx = recorder (i + j)) ->
    dispatch extern code fs i ctx (idx, s) =
      (Normal tt,
       (Z.of_nat (i + length fs),
        set_user (user s ++ onion i (length fs)) s)).
Proof.
  induction fs as [|f rest IH]; intros i idx s Hidx Hcode; simpl.
  - apply Z.leb_gt in Hidx. rewrite Hidx. simpl.
    unfold onion. simpl. rewrite app_nil_r, set_user_same.
    by rewrite Nat.add_0_r.
  - apply Z.leb_gt in Hidx. rewrite Hidx. simpl.
    rewrite (Hcode 0 f eq_refl), Nat.add_0_r. simpl.
    rewrite (IH (S i) (Z.of_nat i)).
    + simpl. rewrite onion_S.
      replace (S (i + length rest)) with (i + S (length rest)) by lia.
      unfold set_user. simpl. do 3 f_equal.
      rewrite <- !app_assoc. reflexivity.
    + lia.
    + intros j g Hj. rewrite (Hcode (S j) g Hj). f_equal. lia.
Qed.

End OnionFacts.

(** C5.  With N handlers that each record their entry, await [next()] and
    record their exit, dispatching one message completes normally and adds
    to the trace exactly entry(0), ..., entry(N-1), exit(N-1), ..., exit(0).
    (Modelled from the spec: the composition engine.) *)
Theorem on_message_onion_order
    (extern : list call -> call -> outcome value)
    (listener : fid -> list value -> state (list event)
                -> outcome unit * list event)
    (code : fid -> value -> hprog (list event))
    (fs : list fid) (fn : value -> M (list event) unit)
    (message : value) (s : state (list event)) :
  plain_context (app s) ->
  (forall j f ctx, fs !! j = Some f -> code f ctx = recorder j) ->
  compose extern code (map VFun fs) = Normal fn ->
  on_message extern listener fn message s =
    (Normal VUndef,
     set_user (user s ++ onion 0 (length fs)) (new_Context message s).2).
Proof.
  intros Hplain Hcode Hfn.
  unfold compose in Hfn.
  destruct (forallb _ (map VFun fs)); [|discriminate].
  injection Hfn as <-. rewrite function_ids_VFun.
  rewrite on_message_unfold by exact Hplain. unfold composed.
  rewrite (dispatch_recorders extern code _ fs 0 (-1)%Z).
  - simpl. by rewrite new_Context_user.
  - lia.
  - intros j f Hj. exact (Hcode j f _ Hj).
Qed.


Lemma on_message_onion_order_witness :
  user (on_message obliging_transport silent_listener
          (composed obliging_transport recorders_code ["h0"; "h1"; "h2"])
          (VStr "m") three_recorders_state).2
  = [Entry 0; Entry 1; Entry 2; Exit 2; Exit 1; Exit 0].
Proof.
  rewrite (on_message_onion_order obliging_transport silent_listener
             recorders_code ["h0"; "h1"; "h2"] _ (VStr "m")
             three_recorders_state).
  - reflexivity.
  - intros k _. reflexivity.
  - intros [|[|[|j]]] f ctx [= <-]; reflexivity.
  - reflexivity.
Defined.

(** ** A second call of [next] *)

Section SecondNextFacts.
Context {U : Type}.
Variable extern : list call -> call -> outcome value.
Variable code : fid -> value -> hprog U.


End SecondNextFacts.




(** ** connect *)

Section ConnectFacts.
Context {U : Type}.
Variable extern : list call -> call -> outcome value.
Variable listener : fid -> list value -> state U -> outcome unit * U.
Variable code : fid -> value -> hprog U.


Lemma appending_silent {A} (m : M U A) :
  (forall s, calls (m s).2 = calls s) -> appending m.
Proof. intros H s. exists []. by rewrite app_nil_r. Qed.

Lemma appending_bind {A B} (m : M U A) (k : A -> M U B) :
  appending m -> (forall a, appending (k a)) -> appending (bind m k).
Proof.
  intros Hm Hk s. unfold bind.
  destruct (Hm s) as [l1 H1]. destruct (m s) as [[a|e] s1]; simpl in *.
  - destruct (Hk a s1) as [l2 H2]. exists (l1 ++ l2).
    by rewrite H2, H1, app_assoc.
  - by exists l1.
Qed.

Lemma appending_try_catch {A} (m : M U A) (h : value -> M U A) :
  appending m -> (forall e, appending (h e)) -> appending (try_catch m h).
Proof.
  intros Hm Hh s. unfold try_catch.
  destruct (Hm s) as [l1 H1]. destruct (m s) as [[a|e] s1]; simpl in *.
  - by exists l1.
  - destruct (Hh e s1) as [l2 H2]. exists (l1 ++ l2).
    by rewrite H2, H1, app_assoc.
Qed.

Lemma starts_with_bind {A B} (c : call) (m : M U A) (k : A -> M U B) :
  starts_with (U := U) c m -> (forall a, appending (k a)) ->
  starts_with c (bind m k).
Proof.
  intros Hm Hk s. unfold bind.
  destruct (Hm s) as [l1 H1]. destruct (m s) as [[a|e] s1]; simpl in *.
  - destruct (Hk a s1) as [l2 H2]. exists (l1 ++ l2).
    by rewrite H2, H1, <- app_assoc.
  - by exists l1.
Qed.

Lemma starts_with_try_catch {A} (c : call) (m : M U A) (h : value -> M U A) :
  starts_with (U := U) c m -> (forall e, appending (h e)) ->
  starts_with (U := U) c (try_catch m h).
Proof.
  intros Hm Hh s. unfold try_catch.
  destruct (Hm s) as [l1 H1]. destruct (m s) as [[a|e] s1]; simpl in *.
  - by exists l1.
  - destruct (Hh e s1) as [l2 H2]. exists (l1 ++ l2).
    by rewrite H2, H1, <- app_assoc.
Qed.

Lemma starts_with_ext_call (c : call) :
  starts_with (U := U) c (ext_call extern c).
Proof. intros s. by exists []. Qed.

Lemma appending_ext_call (c : call) : appending (U := U) (ext_call extern c).
Proof. intros s. by exists [c]. Qed.

Lemma appending_call_method (target : value) (name : string)
    (args : list value) :
  appending (U := U) (call_method extern target name args).
Proof.
  destruct target; try apply appending_ext_call;
    by apply appending_silent.
Qed.

Lemma appending_run_listeners (ls : list fid) (args : list value) :
  appending (U := U) (run_listeners listener ls args).
Proof.
  induction ls as [|l rest IH]; simpl.
  - by apply appending_silent.
  - apply appending_bind; [|intros _; exact IH].
    apply appending_silent. intros s. by destruct (listener l args s).
Qed.

Lemma appending_emit (name : string) (args : list value) :
  appending (U := U) (emit listener name args).
Proof.
  unfold emit. apply appending_bind; [by apply appending_silent|]. intros s0.
  apply appending_bind; [by apply appending_silent|]. intros _.
  apply appending_bind; [apply appending_run_listeners|]. intros _.
  by apply appending_silent.
Qed.

Lemma appending_createChannel (connection : value) (key : string) :
  appending (U := U) (createChannel extern listener connection key).
Proof.
  unfold createChannel.
  apply appending_bind; [apply appending_call_method|]. intros ch.
  apply appending_bind; [apply appending_emit|]. intros _.
  apply appending_bind; [apply appending_call_method|]. intros _.
  apply appending_bind; [apply appending_call_method|]. intros _.
  by apply appending_silent.
Qed.

Lemma appending_consume : appending (U := U) (consume extern listener code).
Proof.
  unfold consume, messageHandler.
  apply appending_bind.
  { apply appending_bind; [by apply appending_silent|]. intros s0.
    apply appending_bind; [by apply appending_silent|]. intros fn.
    by apply appending_silent. }
  intros _. apply appending_bind; [by apply appending_silent|]. intros s0.
  apply appending_bind; [apply appending_call_method|]. intros _.
  apply appending_call_method.
Qed.

Lemma appending_close : appending (U := U) (close extern).
Proof.
  unfold close.
  repeat (first
    [ apply appending_bind; [|intros ?]
    | apply appending_call_method
    | by apply appending_silent
    | match goal with |- appending (if ?b then _ else _) => destruct b end ]).
Qed.

Lemma appending_connect_cleanup (err : value) :
  appending (U := U) (connect_cleanup extern err).
Proof.
  intros s. unfold connect_cleanup.
  destruct (appending_close s) as [l Hl].
  destruct (close extern s) as [[v|e] s']; simpl in *; by exists l.
Qed.

Lemma starts_with_connect_setup (url socketOpts : value) :
  starts_with (U := U) (AmqpConnect url socketOpts)
              (connect_setup extern listener code url socketOpts).
Proof.
  unfold connect_setup, createConnection.
  apply starts_with_bind.
  { apply starts_with_bind; [apply starts_with_ext_call|]. intros c.
    apply appending_bind; [apply appending_emit|]. intros _.
    apply appending_bind; [apply appending_call_method|]. intros _.
    apply appending_bind; [apply appending_call_method|]. intros _.
    by apply appending_silent. }
  intros c.
  apply appending_bind; [by apply appending_silent|]. intros _.
  apply appending_bind; [by apply appending_silent|]. intros s'.
  apply appending_bind; [apply appending_createChannel|]. intros ch.
  apply appending_bind; [by apply appending_silent|]. intros _.
  apply appending_bind; [by apply appending_silent|]. intros s0.
  apply appending_bind.
  { destruct (prefetchOpts (app s0)) as [[count global]|].
    - apply appending_bind; [apply appending_call_method|]. intros _.
      by apply appending_silent.
    - by apply appending_silent. }
  intros _.
  apply appending_bind; [by apply appending_silent|]. intros s1.
  apply appending_bind; [apply appending_createChannel|]. intros pch.
  apply appending_bind; [by apply appending_silent|]. intros _.
  apply appending_bind; [apply appending_consume|]. intros tag.
  apply appending_bind; [by apply appending_silent|]. intros _.
  apply appending_bind; [by apply appending_silent|]. intros s2.
  apply appending_bind; [apply appending_emit|]. intros _.
  by apply appending_silent.
Qed.


Lemma connect_unfold (url socketOpts : value) (s : state U) :
  connect_checks_pass url socketOpts (app s) ->
  connect extern listener code url socketOpts s =
    bind (try_catch
            (connect_setup extern listener code url
               (with_default_object socketOpts s).1)
            (connect_cleanup extern))
         (fun _ => ret VUndef)
         (with_default_object socketOpts s).2.
Proof.
  intros (Hm & Hl & Hu & Hs).
  unfold connect. rewrite default_bind.
  pose proof (with_default_object_typeof socketOpts s) as Ht.
  assert (Ha : app (with_default_object socketOpts s).2 = app s)
    by by destruct socketOpts.
  destruct (with_default_object socketOpts s) as [o s0]. simpl in *.
  unfold bind at 1, get. rewrite Ha.
  rewrite bool_decide_eq_false_2 by exact Hm.
  rewrite bool_decide_eq_false_2 by exact Hl.
  rewrite Hu. simpl.
  rewrite (bool_decide_eq_true_2 (typeof o = TObject)) by by apply Ht.
  reflexivity.
Qed.

(** Whatever happens in the [try] block, the promise of [connect] is
    fulfilled. *)
Lemma connect_fulfilled (url socketOpts : value) (s : state U) :
  connect_checks_pass url socketOpts (app s) ->
  (connect extern listener code url socketOpts s).1 = Normal VUndef.
Proof.
  intros H. rewrite connect_unfold by exact H.
  unfold bind, try_catch, connect_cleanup.
  destruct (connect_setup _ _ _ _ _ _) as [[[]|e] s1]; [reflexivity|].
  destruct (close extern s1) as [[v|e'] s2]; reflexivity.
Qed.

End ConnectFacts.


(** C4.  [connect] fails with a configuration error, having made no call
    to the transport, when no middleware is registered, and when no
    ['consumer:error'] listener is registered; when both are there and the
    arguments are well typed, its first call is [amqplib.connect]. *)
Theorem connect_requires_middleware_and_error_listener {U : Type}
    (extern : list call -> call -> outcome value)
    (listener : fid -> list value -> state U -> outcome unit * U)
    (code : fid -> value -> hprog U)
    (url socketOpts : value) (s : state U) :
  (middlewares (app s) = [] ->
     exists s',
       connect extern listener code url socketOpts s =
         (Throw (VError "At least one queue middleware is required."), s') /\
       calls s' = calls s)
  /\
  (default [] (listeners (app s) !! "consumer:error") = [] ->
     exists s',
       connect extern listener code url socketOpts s =
         (Throw (VError (if bool_decide (middlewares (app s) = [])
                         then "At least one queue middleware is required."
                         else "An error handler is required.")), s') /\
       calls s' = calls s)
  /\
  (connect_checks_pass url socketOpts (app s) ->
     exists rest,
       calls (connect extern listener code url socketOpts s).2 =
         calls s ++
         AmqpConnect url (with_default_object socketOpts s).1 :: rest).
Proof.
  assert (Ha : app (with_default_object socketOpts s).2 = app s)
    by by destruct socketOpts.
  pose proof (with_default_object_calls socketOpts s) as Hc.
  split; [|split].
  - intros Hm. unfold connect. rewrite default_bind.
    destruct (with_default_object socketOpts s) as [o s0]. simpl in *.
    unfold bind, get. rewrite Ha.
    rewrite bool_decide_eq_true_2 by exact Hm. by exists s0.
  - intros Hl. unfold connect. rewrite default_bind.
    destruct (with_default_object socketOpts s) as [o s0]. simpl in *.
    unfold bind, get. rewrite Ha.
    destruct (bool_decide (middlewares (app s) = [])); [by exists s0|].
    rewrite bool_decide_eq_true_2 by exact Hl. by exists s0.
  - intros H. rewrite (connect_unfold extern listener code) by exact H.
    assert (Hstart : starts_with
              (AmqpConnect url (with_default_object socketOpts s).1)
              (bind (try_catch
                       (connect_setup extern listener code url
                          (with_default_object socketOpts s).1)
                       (connect_cleanup extern))
                    (fun _ => ret VUndef))).
    { apply starts_with_bind; [|intros _; by apply appending_silent].
      apply starts_with_try_catch.
      - apply starts_with_connect_setup.
      - apply appending_connect_cleanup. }
    destruct (Hstart (with_default_object socketOpts s).2) as [l Hl].
    exists l. by rewrite Hl, Hc.
Qed.

Lemma connect_requires_middleware_and_error_listener_witness :
  (connect obliging_transport idle_listener idle_code (VStr "amqp://host") VUndef
     (set_app (with_middlewares []) unconnected_state)).1
    = Throw (VError "At least one queue middleware is required.")
  /\
  (exists rest,
     calls (connect obliging_transport idle_listener idle_code
              (VStr "amqp://host") VUndef unconnected_state).2
     = [] ++ AmqpConnect (VStr "amqp://host") (VRef 2) :: rest).
Proof.
  destruct (connect_requires_middleware_and_error_listener
              obliging_transport idle_listener idle_code
              (VStr "amqp://host") VUndef
              (set_app (with_middlewares []) unconnected_state))
    as ([s' [H1 _]] & _ & _); [reflexivity|].
  split; [by rewrite H1|].
  apply (connect_requires_middleware_and_error_listener
           obliging_transport idle_listener idle_code
           (VStr "amqp://host") VUndef unconnected_state).
  repeat split; try done. by left.
Defined.

(** C2 (what the code does instead).  Once the four checks have passed,
    the promise of [connect] is fulfilled with [undefined] whatever fails
    during setup: the [catch] block does not re-raise. *)
Theorem connect_swallows_setup_failure {U : Type}
    (extern : list call -> call -> outcome value)
    (listener : fid -> list value -> state U -> outcome unit * U)
    (code : fid -> value -> hprog U)
    (url socketOpts : value) (s : state U) :
  connect_checks_pass url socketOpts (app s) ->
  (connect extern listener code url socketOpts s).1 = Normal VUndef.
Proof. apply connect_fulfilled. Qed.


Lemma connect_checks_pass_unconnected :
  connect_checks_pass (VStr "amqp://host") VUndef unconnected_app.
Proof. repeat split; try done. by left. Defined.

Lemma connect_swallows_setup_failure_witness :
  (connect_setup refusing_transport idle_listener idle_code
     (VStr "amqp://host") (VRef 2)
     (with_default_object VUndef unconnected_state).2).1
    = Throw (VError "ECONNREFUSED")
  /\
  (connect refusing_transport idle_listener idle_code
     (VStr "amqp://host") VUndef unconnected_state).1 = Normal VUndef
  /\
  unhandled (connect refusing_transport idle_listener idle_code
               (VStr "amqp://host") VUndef unconnected_state).2 = [].
Proof.
  split; [reflexivity|]. split; [|reflexivity].
  apply (connect_swallows_setup_failure refusing_transport idle_listener
           idle_code (VStr "amqp://host") VUndef unconnected_state).
  exact connect_checks_pass_unconnected.
Defined.


(** When the cleanup fails too, the caller still sees a fulfilled promise:
    the original error sits on a promise nobody holds, and the error of
    [close()] is dropped. *)
Lemma connect_cleanup_failure_unobserved :
  (connect half_open_transport idle_listener idle_code
     (VStr "amqp://host") VUndef unconnected_state).1 = Normal VUndef
  /\
  unhandled (connect half_open_transport idle_listener idle_code
               (VStr "amqp://host") VUndef unconnected_state).2
    = [VError "channel refused"]
  /\
  (close half_open_transport
     (connect_setup half_open_transport idle_listener idle_code
        (VStr "amqp://host") (VRef 2)
        (with_default_object VUndef unconnected_state).2).2).1
    = Throw (VError "close failed").
Proof. repeat split. Qed.
(** ** Registration *)

Section RegistrationFacts.
Context {U : Type}.

Lemma check_functions_all (fns : list value) (s : state U) :
  Forall (fun v => typeof v = TFunction) fns ->
  check_functions fns s = (Normal tt, s).
Proof.
  induction 1 as [|v fns Hv _ IH]; simpl; [reflexivity|].
  rewrite Hv. simpl. exact IH.
Qed.

Lemma check_functions_some (fns : list value) (s : state U) :
  Exists (fun v => typeof v <> TFunction) fns ->
  check_functions fns s =
    (Throw (VTypeError "Middleware must be composed of functions!"), s).
Proof.
  induction 1 as [v fns Hv | v fns _ IH]; simpl.
  - rewrite bool_decide_eq_false_2 by exact Hv. reflexivity.
  - destruct (bool_decide (typeof v = TFunction)); simpl; [exact IH | reflexivity].
Qed.
End RegistrationFacts.


(** C9. With a numeric [count], [prefetch] throws
    [TypeError('[global] must be a boolean.')] whatever [global] is, and the
    application (so [prefetchOpts]) is left as it was. *)
Theorem prefetch_numeric_count_always_throws {U : Type}
    (count global : value) (s : state U) :
  typeof count = TNumber ->
  prefetch count global s =
    (Throw (VTypeError "[global] must be a boolean."), s).
Proof.
  intros H. unfold prefetch. rewrite H. reflexivity.
Qed.


Lemma prefetch_numeric_count_always_throws_witness :
  prefetch (VNum 20) (VBool false) unconnected_state =
    (Throw (VTypeError "[global] must be a boolean."), unconnected_state).
Proof.
  apply (prefetch_numeric_count_always_throws
           (VNum 20) (VBool false) unconnected_state).
  reflexivity.
Defined.

(** * Further properties *)

(** ** Relations every step of the framework keeps *)

Section Keeps.
Context {U : Type}.
Variable extern : list call -> call -> outcome value.
Variable listener : fid -> list value -> state U -> outcome unit * U.
Variable code : fid -> value -> hprog U.

Variable R : state U -> state U -> Prop.
Hypothesis R_refl : forall s, R s s.
Hypothesis R_trans : forall s1 s2 s3, R s1 s2 -> R s2 s3 -> R s1 s3.
Hypothesis R_user : forall s u, R s (set_user u s).
Hypothesis R_emitted : forall s name args,
  name ∈ event_names -> R s (add_emitted (name, args) s).
Hypothesis R_unhandled : forall s e, R s (add_unhandled e s).
Hypothesis R_heap : forall s h, R s (set_heap h s).
Hypothesis R_connect : forall s url so, R s (add_call (AmqpConnect url so) s).
Hypothesis R_method : forall s t name args,
  is_prefetch (Method t name args) = false ->
  R s (add_call (Method t name args) s).
Hypothesis R_prefetch : forall s count global,
  prefetchOpts (app s) = Some (count, global) ->
  R s (add_call (Method (consumerChannel (app s)) "prefetch" [count; global]) s).
Hypothesis R_connection : forall s v, R s (set_app (with_connection v) s).
Hypothesis R_consumerChannel :
  forall s v, R s (set_app (with_consumerChannel v) s).
Hypothesis R_publisherChannel :
  forall s v, R s (set_app (with_publisherChannel v) s).
Hypothesis R_consumerTag : forall s v, R s (set_app (with_consumerTag v) s).

Ltac known_event :=
  vm_compute; repeat first [apply list_elem_of_here | apply list_elem_of_further].

Lemma keeps_ret {A} (a : A) : keeps R (ret a).
Proof using R_refl. intros s. apply R_refl. Qed.

Lemma keeps_throw {A} (e : value) : keeps R (throw (A := A) e).
Proof using R_refl. intros s. apply R_refl. Qed.

Lemma keeps_lift {A} (o : outcome A) : keeps R (lift o).
Proof using R_refl. intros s. apply R_refl. Qed.

Lemma keeps_modify (f : state U -> state U) :
  (forall s, R s (f s)) -> keeps R (modify f).
Proof. intros H s. apply H. Qed.

Lemma keeps_bind {A B} (m : M U A) (k : A -> M U B) :
  keeps R m -> (forall a, keeps R (k a)) -> keeps R (bind m k).
Proof using R_trans.
  intros Hm Hk s. unfold bind. pose proof (Hm s) as H1.
  destruct (m s) as [[a|e] s1]; simpl in *; [|exact H1].
  exact (R_trans _ _ _ H1 (Hk a s1)).
Qed.

Lemma keeps_bind_at {A B} (m : M U A) (k : A -> M U B) (s : state U) :
  R s (m s).2 -> (forall a, keeps R (k a)) -> R s (bind m k s).2.
Proof using R_trans.
  intros H1 Hk. unfold bind.
  destruct (m s) as [[a|e] s1]; simpl in *; [|exact H1].
  exact (R_trans _ _ _ H1 (Hk a s1)).
Qed.

(** After [s <- get], the continuation runs in [s] itself. *)
Lemma keeps_get_bind {B} (k : state U -> M U B) :
  (forall s, R s (k s s).2) -> keeps R (bind get k).
Proof. intros H s. apply H. Qed.

Lemma keeps_try_catch {A} (m : M U A) (h : value -> M U A) :
  keeps R m -> (forall e, keeps R (h e)) -> keeps R (try_catch m h).
Proof using R_trans.
  intros Hm Hh s. unfold try_catch. pose proof (Hm s) as H1.
  destruct (m s) as [[a|e] s1]; simpl in *; [exact H1|].
  exact (R_trans _ _ _ H1 (Hh e s1)).
Qed.

Lemma keeps_call_method (t : value) (name : string) (args : list value) :
  is_prefetch (Method t name args) = false ->
  keeps R (call_method extern t name args).
Proof using R_refl R_method.
  intros H s. destruct t; simpl; try apply R_refl; by apply R_method.
Qed.

Lemma keeps_run_listeners (ls : list fid) (args : list value) :
  keeps R (run_listeners listener ls args).
Proof using R_refl R_trans R_user.
  induction ls as [|l rest IH]; simpl; [apply keeps_ret|].
  apply keeps_bind; [|intros _; exact IH].
  intros s. destruct (listener l args s). apply R_user.
Qed.

Lemma keeps_emit (name : string) (args : list value) :
  name ∈ event_names -> keeps R (emit listener name args).
Proof using R_refl R_trans R_user R_emitted.
  intros Hname. unfold emit. apply keeps_get_bind. intros s.
  apply keeps_bind; [apply keeps_modify; intros ?; by apply R_emitted|].
  intros _.
  apply keeps_bind; [apply keeps_run_listeners|]. intros _.
  apply keeps_ret.
Qed.

Lemma keeps_createConnection (url socketOpts : value) :
  keeps R (createConnection extern listener url socketOpts).
Proof using R_refl R_trans R_user R_emitted R_connect R_method.
  unfold createConnection.
  apply keeps_bind; [intros s; apply R_connect|]. intros c.
  apply keeps_bind; [apply keeps_emit; known_event|]. intros _.
  apply keeps_bind; [by apply keeps_call_method|]. intros _.
  apply keeps_bind; [by apply keeps_call_method|]. intros _.
  apply keeps_ret.
Qed.

Lemma keeps_createChannel (connection : value) (key : string) :
  key +:+ ":created" ∈ event_names ->
  keeps R (createChannel extern listener connection key).
Proof using R_refl R_trans R_user R_emitted R_method.
  intros Hkey. unfold createChannel.
  apply keeps_bind; [by apply keeps_call_method|]. intros ch.
  apply keeps_bind; [by apply keeps_emit|]. intros _.
  apply keeps_bind; [by apply keeps_call_method|]. intros _.
  apply keeps_bind; [by apply keeps_call_method|]. intros _.
  apply keeps_ret.
Qed.

Lemma keeps_consume : keeps R (consume extern listener code).
Proof using R_refl R_trans R_method.
  unfold consume, messageHandler.
  apply keeps_bind.
  { apply keeps_get_bind. intros s.
    apply keeps_bind; [apply keeps_lift|]. intros fn. apply keeps_ret. }
  intros _. apply keeps_get_bind. intros s.
  apply keeps_bind; [by apply keeps_call_method|]. intros _.
  by apply keeps_call_method.
Qed.

Lemma keeps_connect_setup (url socketOpts : value) :
  keeps R (connect_setup extern listener code url socketOpts).
Proof using R_refl R_trans R_user R_emitted R_connect R_method R_prefetch
  R_connection R_consumerChannel R_publisherChannel R_consumerTag.
  unfold connect_setup.
  apply keeps_bind; [apply keeps_createConnection|]. intros c.
  apply keeps_bind; [apply keeps_modify; intros ?; apply R_connection|]. intros _.
  apply keeps_get_bind. intros s0.
  apply keeps_bind; [apply keeps_createChannel; known_event|]. intros ch.
  apply keeps_bind; [apply keeps_modify; intros ?; apply R_consumerChannel|]. intros _.
  apply keeps_get_bind. intros s1.
  apply keeps_bind_at.
  { destruct (prefetchOpts (app s1)) as [[count global]|] eqn:E;
      [|apply R_refl].
    apply keeps_bind_at; [|intros _; apply keeps_ret].
    destruct (consumerChannel (app s1)) eqn:Ech; simpl;
      try apply R_refl; rewrite <- Ech; by apply R_prefetch. }
  intros _. apply keeps_get_bind. intros s2.
  apply keeps_bind; [apply keeps_createChannel; known_event|]. intros pch.
  apply keeps_bind; [apply keeps_modify; intros ?; apply R_publisherChannel|]. intros _.
  apply keeps_bind; [apply keeps_consume|]. intros tag.
  apply keeps_bind; [apply keeps_modify; intros ?; apply R_consumerTag|]. intros _.
  apply keeps_get_bind. intros s3.
  apply keeps_bind; [apply keeps_emit; known_event|]. intros _.
  apply keeps_ret.
Qed.

Lemma keeps_close : keeps R (close extern).
Proof using R_refl R_trans R_method
  R_connection R_consumerChannel R_publisherChannel.
  unfold close.
  apply keeps_get_bind. intros s0.
  apply keeps_bind.
  { destruct (truthy _); [by apply keeps_call_method | apply keeps_ret]. }
  intros _.
  apply keeps_bind; [apply keeps_modify; intros ?; apply R_consumerChannel|].
  intros _. apply keeps_get_bind. intros s1.
  apply keeps_bind.
  { destruct (truthy _); [by apply keeps_call_method | apply keeps_ret]. }
  intros _.
  apply keeps_bind; [apply keeps_modify; intros ?; apply R_publisherChannel|].
  intros _. apply keeps_get_bind. intros s2.
  apply keeps_bind.
  { destruct (truthy _); [by apply keeps_call_method | apply keeps_ret]. }
  intros _.
  apply keeps_bind; [apply keeps_modify; intros ?; apply R_connection|].
  intros _. apply keeps_ret.
Qed.

Lemma keeps_connect_cleanup (err : value) :
  keeps R (connect_cleanup extern err).
Proof using R_refl R_trans R_method R_unhandled
  R_connection R_consumerChannel R_publisherChannel.
  intros s. unfold connect_cleanup. pose proof (keeps_close s) as H.
  destruct (close extern s) as [[v|e] s']; simpl in *; [exact H|].
  exact (R_trans _ _ _ H (R_unhandled _ _)).
Qed.

Lemma keeps_connect (url socketOpts : value) :
  keeps R (connect extern listener code url socketOpts).
Proof using R_refl R_trans R_user R_emitted R_unhandled R_heap R_connect
  R_method R_prefetch
  R_connection R_consumerChannel R_publisherChannel R_consumerTag.
  unfold connect.
  apply keeps_bind.
  { destruct socketOpts; try apply keeps_ret. intros s. apply R_heap. }
  intros so. apply keeps_get_bind. intros s.
  repeat (match goal with
          | |- R _ ((if ?b then _ else _) _).2 => destruct b
          end; try apply R_refl).
  apply keeps_bind; [|intros _; apply keeps_ret].
  apply keeps_try_catch; [apply keeps_connect_setup|].
  apply keeps_connect_cleanup.
Qed.

End Keeps.

(** ** Registration is never lost *)

Lemma same_registrations_refl (a : App) : same_registrations a a.
Proof. by repeat split. Qed.

Lemma same_registrations_trans (a1 a2 a3 : App) :
  same_registrations a1 a2 -> same_registrations a2 a3 ->
  same_registrations a1 a3.
Proof.
  intros (?&?&?&?&?&?) (?&?&?&?&?&?). repeat split; congruence.
Qed.

(** X1.  [connect] and [close], however they end, assign none of the
    fields the application was built with or that registration assigns:
    the queue name and options, [app.context], the middleware and
    [prefetchOpts] are afterwards what they were. *)
Theorem connect_and_close_keep_registrations {U : Type}
    (extern : list call -> call -> outcome value)
    (listener : fid -> list value -> state U -> outcome unit * U)
    (code : fid -> value -> hprog U)
    (url socketOpts : value) (s : state U) :
  same_registrations (app s)
    (app (connect extern listener code url socketOpts s).2) /\
  same_registrations (app s) (app (close extern s).2).
Proof.
  split.
  - apply (keeps_connect extern listener code
             (fun s s' => same_registrations (app s) (app s')));
      try (intros; by repeat split).
    intros s1 s2 s3. apply same_registrations_trans.
  - apply (keeps_close extern
             (fun s s' => same_registrations (app s) (app s')));
      try (intros; by repeat split).
    intros s1 s2 s3. apply same_registrations_trans.
Qed.

(** ** prefetch *)

Lemma without_prefetch_silent {U : Type} (s s' : state U) :
  app s' = app s -> calls s' = calls s -> without_prefetch s s'.
Proof.
  intros Ha Hc H. rewrite Ha. split; [exact H|].
  exists []. by rewrite app_nil_r.
Qed.

Lemma without_prefetch_trans {U : Type} (s1 s2 s3 : state U) :
  without_prefetch s1 s2 -> without_prefetch s2 s3 -> without_prefetch s1 s3.
Proof.
  intros H12 H23 H1. destruct (H12 H1) as (H2 & l1 & Hc1 & Hl1).
  destruct (H23 H2) as (H3 & l2 & Hc2 & Hl2). split; [exact H3|].
  exists (l1 ++ l2). rewrite Hc2, Hc1, app_assoc. split; [done|].
  rewrite forallb_app, Hl1, Hl2. done.
Qed.

Lemma without_prefetch_call {U : Type} (s : state U) (c : call) :
  is_prefetch c = false -> without_prefetch s (add_call c s).
Proof.
  intros Hc H. split; [exact H|]. exists [c]. split; [done|].
  simpl. by rewrite Hc.
Qed.

(** X2.  [prefetch] throws a TypeError for every pair of arguments, a
    number or not, and leaves the application as it was; and as long as
    [prefetchOpts] is unset, [connect] makes no call of [prefetch] on any
    channel. *)
Theorem prefetch_never_takes_effect {U : Type}
    (extern : list call -> call -> outcome value)
    (listener : fid -> list value -> state U -> outcome unit * U)
    (code : fid -> value -> hprog U) (s : state U) :
  (forall count global,
     prefetch count global s =
       (Throw (VTypeError (if bool_decide (typeof count = TNumber)
                           then "[global] must be a boolean."
                           else "[count] must be a number.")), s))
  /\
  (forall url socketOpts,
     prefetchOpts (app s) = None ->
     prefetchOpts (app (connect extern listener code url socketOpts s).2)
       = None /\
     exists l,
       calls (connect extern listener code url socketOpts s).2
         = calls s ++ l /\
       forallb (fun c => negb (is_prefetch c)) l = true).
Proof.
  split.
  - intros count global. unfold prefetch.
    destruct (typeof count) eqn:E; reflexivity.
  - intros url socketOpts.
    apply (keeps_connect extern listener code without_prefetch);
      first [ intros; by apply without_prefetch_silent
            | intros; by apply without_prefetch_call
            | intros s1 s2 s3; by apply without_prefetch_trans
            | intros s0 count global Hsome Hnone; congruence
            | intros s0 v H; split; [exact H|];
              exists []; by rewrite app_nil_r ].
Qed.

Lemma prefetch_never_takes_effect_witness :
  prefetch (VStr "20") (VBool true) unconnected_state =
    (Throw (VTypeError "[count] must be a number."), unconnected_state)
  /\
  exists l,
    calls (connect obliging_transport idle_listener idle_code
             (VStr "amqp://host") VUndef unconnected_state).2 = [] ++ l /\
    forallb (fun c => negb (is_prefetch c)) l = true.
Proof.
  destruct (prefetch_never_takes_effect obliging_transport idle_listener
              idle_code unconnected_state) as [Hp Hc].
  split; [exact (Hp (VStr "20") (VBool true))|].
  exact (proj2 (Hc (VStr "amqp://host") VUndef eq_refl)).
Defined.

(** ** The checks of the constructor and of connect *)

Section CheckFacts.
Context {U : Type}.
Variable extern : list call -> call -> outcome value.
Variable listener : fid -> list value -> state U -> outcome unit * U.
Variable code : fid -> value -> hprog U.

Lemma with_default_object_app (v : value) (s : state U) :
  app (with_default_object v s).2 = app s.
Proof. by destruct v. Qed.

(** [connect], as far as its four checks. *)
Lemma connect_checks (url socketOpts : value) (s : state U) :
  let so := (with_default_object socketOpts s).1 in
  let s0 := (with_default_object socketOpts s).2 in
  connect extern listener code url socketOpts s =
    if bool_decide (middlewares (app s) = []) then
      (Throw (VError "At least one queue middleware is required."), s0)
    else if bool_decide
              (default [] (listeners (app s) !! "consumer:error") = []) then
      (Throw (VError "An error handler is required."), s0)
    else if negb (bool_decide (typeof url = TString)) then
      (Throw (VTypeError "[url] must be a string."), s0)
    else if negb (bool_decide (typeof so = TObject)) then
      (Throw (VTypeError "[socketOpts] must be an object."), s0)
    else
      bind (try_catch (connect_setup extern listener code url so)
                      (connect_cleanup extern))
           (fun _ => ret VUndef) s0.
Proof.
  intros so s0. unfold connect. rewrite default_bind. fold so s0.
  unfold bind at 1, get.
  replace (app s0) with (app s) by (symmetry; apply with_default_object_app).
  repeat (match goal with
          | |- (if ?b then _ else _) _ = _ => destruct b
          end; try reflexivity).
Qed.

End CheckFacts.

(** X3.  With a middleware and an error listener registered, [connect]
    fails with a TypeError, before any call to the transport, when the url
    is not a string and, for a string url, when the socket options (an
    omitted one is [{}]) are not an object; the application is unchanged. *)
Theorem connect_checks_argument_types {U : Type}
    (extern : list call -> call -> outcome value)
    (listener : fid -> list value -> state U -> outcome unit * U)
    (code : fid -> value -> hprog U)
    (url socketOpts : value) (s : state U) :
  middlewares (app s) <> [] ->
  default [] (listeners (app s) !! "consumer:error") <> [] ->
  (typeof url <> TString ->
     exists s',
       connect extern listener code url socketOpts s =
         (Throw (VTypeError "[url] must be a string."), s') /\
       calls s' = calls s /\ app s' = app s)
  /\
  (typeof url = TString ->
   socketOpts <> VUndef -> typeof socketOpts <> TObject ->
     connect extern listener code url socketOpts s =
       (Throw (VTypeError "[socketOpts] must be an object."), s)).
Proof.
  intros Hm Hl. rewrite connect_checks.
  rewrite (bool_decide_eq_false_2 _ Hm), (bool_decide_eq_false_2 _ Hl).
  split.
  - intros Hu. rewrite (bool_decide_eq_false_2 _ Hu). simpl.
    eexists. split; [reflexivity|].
    split; [apply with_default_object_calls | apply with_default_object_app].
  - intros Hu Hso Ht. rewrite (bool_decide_eq_true_2 _ Hu). simpl.
    destruct socketOpts; try done; simpl in *;
      by rewrite bool_decide_eq_false_2.
Qed.

Lemma connect_checks_argument_types_witness :
  (exists s',
     connect obliging_transport idle_listener idle_code
       (VNum 5672) VUndef unconnected_state =
       (Throw (VTypeError "[url] must be a string."), s') /\
     calls s' = calls unconnected_state /\ app s' = app unconnected_state)
  /\
  connect obliging_transport idle_listener idle_code
    (VStr "amqp://host") (VStr "opts") unconnected_state =
    (Throw (VTypeError "[socketOpts] must be an object."), unconnected_state).
Proof.
  split.
  - apply (connect_checks_argument_types obliging_transport idle_listener
             idle_code (VNum 5672) VUndef unconnected_state); done.
  - apply (connect_checks_argument_types obliging_transport idle_listener
             idle_code (VStr "amqp://host") (VStr "opts") unconnected_state);
      done.
Defined.

(** X4.  The constructor throws a TypeError, leaving the application and
    the transport alone, when the queue name is not a string or an option
    set that is given is not an object.  Otherwise the new application
    holds the name and the option sets (an omitted one is a fresh empty
    object of its own), an empty [context], no middleware and no listener;
    so a [connect] right after it fails for want of a middleware, without a
    call to the transport. *)
Theorem new_Application_checks_then_starts_empty {U : Type}
    (extern : list call -> call -> outcome value)
    (listener : fid -> list value -> state U -> outcome unit * U)
    (code : fid -> value -> hprog U)
    (queueName queueOpts consumeOpts : value) (s : state U) :
  (constructor_args_refused queueName queueOpts consumeOpts ->
     exists msg s',
       new_Application queueName queueOpts consumeOpts s =
         (Throw (VTypeError msg), s') /\
       app s' = app s /\ calls s' = calls s)
  /\
  (typeof queueName = TString ->
   queueOpts = VUndef \/ typeof queueOpts = TObject ->
   consumeOpts = VUndef \/ typeof consumeOpts = TObject ->
     let qo := (with_default_object queueOpts s).1 in
     let s1 := (with_default_object queueOpts s).2 in
     let co := (with_default_object consumeOpts s1).1 in
     let s2 := (with_default_object consumeOpts s1).2 in
     new_Application queueName queueOpts consumeOpts s =
       (Normal VApp, set_app (fun _ => fresh_app queueName qo co) s2) /\
     (queueOpts = VUndef -> consumeOpts = VUndef ->
        qo <> co /\ heap s2 = heap s ++ [∅; ∅]) /\
     forall url socketOpts,
       exists s',
         connect extern listener code url socketOpts
           (set_app (fun _ => fresh_app queueName qo co) s2) =
           (Throw (VError "At least one queue middleware is required."), s')
         /\ calls s' = calls s).
Proof.
  assert (Hnew : new_Application queueName queueOpts consumeOpts s =
    let qo := (with_default_object queueOpts s).1 in
    let s1 := (with_default_object queueOpts s).2 in
    let co := (with_default_object consumeOpts s1).1 in
    let s2 := (with_default_object consumeOpts s1).2 in
    if negb (bool_decide (typeof queueName = TString)) then
      (Throw (VTypeError "[queueName] must be a string."), s2)
    else if negb (bool_decide (typeof qo = TObject)) then
      (Throw (VTypeError "[queueOpts] must be an object."), s2)
    else if negb (bool_decide (typeof co = TObject)) then
      (Throw (VTypeError "[consumeOpts] must be an object."), s2)
    else (Normal VApp, set_app (fun _ => fresh_app queueName qo co) s2)).
  { unfold new_Application. rewrite default_bind, default_bind. simpl.
    repeat (match goal with
            | |- (if ?b then _ else _) _ = _ => destruct b
            end; try reflexivity). }
  rewrite Hnew. clear Hnew.
  pose proof (with_default_object_typeof queueOpts s) as Hq.
  pose proof (with_default_object_typeof consumeOpts
                (with_default_object queueOpts s).2) as Hc.
  assert (Happ : app (with_default_object consumeOpts
                        (with_default_object queueOpts s).2).2 = app s).
  { by rewrite !with_default_object_app. }
  assert (Hcalls : calls (with_default_object consumeOpts
                            (with_default_object queueOpts s).2).2 = calls s).
  { by rewrite !with_default_object_calls. }
  cbv zeta.
  set (qo := (with_default_object queueOpts s).1) in *.
  set (s1 := (with_default_object queueOpts s).2) in *.
  set (co := (with_default_object consumeOpts s1).1) in *.
  set (s2 := (with_default_object consumeOpts s1).2) in *.
  split.
  - intros Hbad.
    destruct (bool_decide (typeof queueName = TString)) eqn:E1; simpl;
      [|eauto].
    destruct (bool_decide (typeof qo = TObject)) eqn:E2; simpl; [|eauto].
    destruct (bool_decide (typeof co = TObject)) eqn:E3; simpl; [|eauto].
    exfalso. apply bool_decide_eq_true_1 in E1, E2, E3.
    apply Hq in E2. apply Hc in E3.
    destruct Hbad as [H | [[H1 H2] | [H1 H2]]]; [done | |];
      [destruct E2 | destruct E3]; done.
  - intros H1 H2 H3.
    rewrite (bool_decide_eq_true_2 _ H1). simpl.
    rewrite (bool_decide_eq_true_2 (typeof qo = TObject))
      by by apply Hq.
    rewrite (bool_decide_eq_true_2 (typeof co = TObject))
      by by apply Hc.
    simpl. split; [reflexivity|]. split.
    + intros Eq Ec. subst qo co s2 s1. subst queueOpts consumeOpts.
      simpl. split.
      * intros [= H]. rewrite length_app in H. simpl in H. lia.
      * by rewrite <- app_assoc.
    + intros url socketOpts. rewrite connect_checks. simpl.
      eexists. split; [reflexivity|].
      by rewrite with_default_object_calls.
Qed.

Lemma new_Application_checks_then_starts_empty_witness :
  (exists msg s',
     new_Application (VNum 1) VUndef VUndef unconnected_state =
       (Throw (VTypeError msg), s') /\
     app s' = app unconnected_state /\ calls s' = calls unconnected_state)
  /\
  new_Application (VStr "jobs") VUndef VUndef unconnected_state =
    (Normal VApp,
     mkState (fresh_app (VStr "jobs") (VRef 2) (VRef 3))
             [∅; ∅; ∅; ∅] [] [] [] tt).
Proof.
  split.
  - apply (new_Application_checks_then_starts_empty obliging_transport
             idle_listener idle_code (VNum 1) VUndef VUndef
             unconnected_state).
    left. discriminate.
  - apply (new_Application_checks_then_starts_empty obliging_transport
             idle_listener idle_code (VStr "jobs") VUndef VUndef
             unconnected_state); [reflexivity | by left | by left].
Defined.

Lemma use_all_functions {U : Type} (fns : list value) (s : state U) :
  Forall (fun v => typeof v = TFunction) fns ->
  use fns s =
    (Normal VApp, set_app (with_middlewares (middlewares (app s) ++ fns)) s).
Proof.
  intros H. unfold use, bind. by rewrite check_functions_all by exact H.
Qed.

Lemma use_some_non_function {U : Type} (fns : list value) (s : state U) :
  Exists (fun v => typeof v <> TFunction) fns ->
  use fns s =
    (Throw (VTypeError "Middleware must be composed of functions!"), s).
Proof.
  intros H. unfold use, bind. by rewrite check_functions_some by exact H.
Qed.

(** X5.  Registration composes: two calls of [use] with functions register
    what one call with all of them does, in the same order; and a call
    that throws keeps what the calls before it had registered. *)
Theorem use_accumulates {U : Type} (fns more : list value) (s : state U) :
  Forall (fun v => typeof v = TFunction) fns ->
  (Forall (fun v => typeof v = TFunction) more ->
     bind (use fns) (fun _ => use more) s = use (fns ++ more) s)
  /\
  (Exists (fun v => typeof v <> TFunction) more ->
     bind (use fns) (fun _ => use more) s =
       (Throw (VTypeError "Middleware must be composed of functions!"),
        set_app (with_middlewares (middlewares (app s) ++ fns)) s)).
Proof.
  intros Hf. split; intros Hm; unfold bind at 1;
    rewrite (use_all_functions fns s Hf).
  - rewrite use_all_functions by exact Hm.
    rewrite use_all_functions by (by apply Forall_app).
    unfold set_app, with_middlewares. simpl. by rewrite app_assoc.
  - by rewrite use_some_non_function by exact Hm.
Qed.

Lemma use_accumulates_witness :
  bind (use [VFun "a"]) (fun _ => use [VFun "b"; VFun "c"]) unconnected_state
    = use [VFun "a"; VFun "b"; VFun "c"] unconnected_state
  /\
  middlewares
    (app (bind (use [VFun "a"]) (fun _ => use [VNull]) unconnected_state).2)
    = [VFun "handler"; VFun "a"].
Proof.
  split.
  - apply (use_accumulates [VFun "a"] [VFun "b"; VFun "c"] unconnected_state);
      repeat constructor.
  - rewrite (proj2 (use_accumulates [VFun "a"] [VNull] unconnected_state
                      ltac:(repeat constructor))).
    + reflexivity.
    + apply Exists_cons_hd. discriminate.
Defined.

(** ** close *)

Section CloseFacts.
Context {U : Type}.
Variable extern : list call -> call -> outcome value.

Lemma call_method_truthy (t : value) (name : string) (args : list value) :
  truthy t = true ->
  call_method (U := U) extern t name args = ext_call extern (Method t name args).
Proof. by destruct t. Qed.

Lemma close_step_Normal (t v : value) (s s' : state U) :
  close_step extern t s = (Normal v, s') ->
  calls s' = calls s ++ map (fun x => Method x "close" [])
                            (List.filter truthy [t]) /\
  app s' = app s /\ heap s' = heap s /\ emitted s' = emitted s /\
  unhandled s' = unhandled s /\ user s' = user s.
Proof.
  unfold close_step. simpl. destruct (truthy t) eqn:E.
  - rewrite call_method_truthy by exact E. unfold ext_call.
    intros [= _ <-]. by repeat split.
  - intros [= _ <-]. simpl. rewrite app_nil_r. by repeat split.
Qed.

Lemma close_step_Throw (t e : value) (s s' : state U) :
  close_step extern t s = (Throw e, s') ->
  truthy t = true /\ extern (calls s) (Method t "close" []) = Throw e /\
  s' = add_call (Method t "close" []) s.
Proof.
  unfold close_step. destruct (truthy t) eqn:E; [|discriminate].
  rewrite call_method_truthy by exact E. unfold ext_call.
  intros [= -> <-]. by repeat split.
Qed.

Lemma close_unfold (s : state U) :
  close extern s =
    match close_step extern (consumerChannel (app s)) s with
    | (Throw e, s1) => (Throw e, s1)
    | (Normal _, s1) =>
        let s1' := set_app (with_consumerChannel VUndef) s1 in
        match close_step extern (publisherChannel (app s1')) s1' with
        | (Throw e, s2) => (Throw e, s2)
        | (Normal _, s2) =>
            let s2' := set_app (with_publisherChannel VUndef) s2 in
            match close_step extern (connection (app s2')) s2' with
            | (Throw e, s3) => (Throw e, s3)
            | (Normal _, s3) =>
                (Normal VUndef, set_app (with_connection VUndef) s3)
            end
        end
    end.
Proof.
  unfold close, bind, get, modify, ret, close_step. simpl.
  destruct (if truthy (consumerChannel (app s)) then _ else _)
    as [[v1|e1] s1]; [|reflexivity].
  destruct (if truthy (publisherChannel _) then _ else _)
    as [[v2|e2] s2]; [|reflexivity].
  destruct (if truthy (connection _) then _ else _)
    as [[v3|e3] s3]; reflexivity.
Qed.

Lemma close_calls_app (a b c : value) :
  map (fun x => Method x "close" []) (List.filter truthy [a; b; c]) =
  map (fun x => Method x "close" []) (List.filter truthy [a]) ++
  map (fun x => Method x "close" []) (List.filter truthy [b]) ++
  map (fun x => Method x "close" []) (List.filter truthy [c]).
Proof. simpl. by destruct (truthy a), (truthy b), (truthy c). Qed.

(** A [close()] that completes. *)
Lemma close_Normal (v : value) (s s' : state U) :
  close extern s = (Normal v, s') ->
  v = VUndef /\
  calls s' = calls s ++ close_calls (app s) /\
  connection (app s') = VUndef /\ consumerChannel (app s') = VUndef /\
  publisherChannel (app s') = VUndef /\
  heap s' = heap s /\ emitted s' = emitted s.
Proof.
  rewrite close_unfold.
  destruct (close_step extern _ s) as [[v1|e1] s1] eqn:E1; [|discriminate].
  apply close_step_Normal in E1 as (Hc1 & Ha1 & Hh1 & He1 & _).
  cbv zeta.
  destruct (close_step extern _ (set_app _ s1)) as [[v2|e2] s2] eqn:E2;
    [|discriminate].
  apply close_step_Normal in E2 as (Hc2 & Ha2 & Hh2 & He2 & _).
  destruct (close_step extern _ (set_app _ s2)) as [[v3|e3] s3] eqn:E3;
    [|discriminate].
  apply close_step_Normal in E3 as (Hc3 & Ha3 & Hh3 & He3 & _).
  intros [= <- <-]. simpl in *.
  rewrite Ha3. simpl. rewrite Ha2. simpl.
  repeat split; try reflexivity.
  - unfold close_calls. rewrite close_calls_app.
    rewrite Hc3, Hc2, Hc1, Ha2. simpl. rewrite Ha1. simpl.
    by rewrite <- !app_assoc.
  - congruence.
  - congruence.
Qed.

End CloseFacts.



(** X7.  [close()] stops at the first [close()] that fails: when closing
    the consumer channel fails, no other call is made and the application
    keeps all its handles; and whenever [close()] fails, the connection
    handle is still set on the application. *)
Theorem close_stops_at_first_failure {U : Type}
    (extern : list call -> call -> outcome value) (s : state U) :
  (forall e,
     truthy (consumerChannel (app s)) = true ->
     extern (calls s) (Method (consumerChannel (app s)) "close" []) = Throw e ->
     close extern s =
       (Throw e, add_call (Method (consumerChannel (app s)) "close" []) s))
  /\
  (forall e s',
     close extern s = (Throw e, s') ->
     connection (app s') = connection (app s) /\
     exists l, calls s' = calls s ++ l /\ l <> []).
Proof.
  split.
  - intros e Ht He. rewrite close_unfold. unfold close_step at 1.
    rewrite Ht, call_method_truthy by exact Ht. unfold ext_call.
    by rewrite He.
  - intros e s'. rewrite close_unfold.
    destruct (close_step extern _ s) as [[v1|e1] s1] eqn:E1.
    + apply close_step_Normal in E1 as (Hc1 & Ha1 & _).
      cbv zeta.
      destruct (close_step extern _ (set_app _ s1)) as [[v2|e2] s2] eqn:E2.
      * apply close_step_Normal in E2 as (Hc2 & Ha2 & _).
        destruct (close_step extern _ (set_app _ s2)) as [[v3|e3] s3] eqn:E3;
          [discriminate|].
        apply close_step_Throw in E3 as (_ & _ & ->).
        intros [= _ <-]. simpl in *. rewrite Ha2. simpl. rewrite Ha1.
        split; [reflexivity|].
        eexists. rewrite Hc2, Hc1, <- !app_assoc.
        split; [reflexivity|]. intros H.
        apply app_eq_nil in H as [_ H]. apply app_eq_nil in H as [_ H].
        discriminate.
      * apply close_step_Throw in E2 as (_ & _ & ->).
        intros [= _ <-]. simpl in *. rewrite Ha1.
        split; [reflexivity|].
        eexists. rewrite Hc1, <- !app_assoc.
        split; [reflexivity|]. intros H.
        apply app_eq_nil in H as [_ H]. discriminate.
    + apply close_step_Throw in E1 as (_ & _ & ->).
      intros [= _ <-]. split; [reflexivity|].
      exists [Method (consumerChannel (app s)) "close" []]. by split.
Qed.

Lemma close_stops_at_first_failure_witness :
  close half_open_transport connected_state =
    (Throw (VError "close failed"),
     add_call (Method (VHandle 3) "close" []) connected_state).
Proof.
  apply (close_stops_at_first_failure half_open_transport connected_state);
    reflexivity.
Defined.

(** ** A connect that goes through *)

Section SetupFacts.
Context {U : Type}.
Variable extern : list call -> call -> outcome value.
Variable listener : fid -> list value -> state U -> outcome unit * U.
Variable code : fid -> value -> hprog U.

Lemma step_trans (s1 s2 s3 : state U) cs1 cs2 es1 es2 f1 f2 :
  step s1 s2 cs1 es1 f1 -> step s2 s3 cs2 es2 f2 ->
  step s1 s3 (cs1 ++ cs2) (es1 ++ es2) (fun a => f2 (f1 a)).
Proof.
  intros (Hc1 & He1 & Ha1) (Hc2 & He2 & Ha2). repeat split.
  - by rewrite Hc2, Hc1, app_assoc.
  - by rewrite He2, He1, app_assoc.
  - by rewrite Ha2, Ha1.
Qed.

Lemma bind_Normal_inv {A B} (m : M U A) (k : A -> M U B) (s s' : state U)
    (b : B) :
  bind m k s = (Normal b, s') ->
  exists a s1, m s = (Normal a, s1) /\ k a s1 = (Normal b, s').
Proof.
  unfold bind. destruct (m s) as [[a|e] s1]; [eauto | discriminate].
Qed.

Lemma ext_call_step (c : call) (v : value) (s s' : state U) :
  ext_call extern c s = (Normal v, s') -> step s s' [c] [] id.
Proof.
  unfold ext_call. intros [= _ <-].
  repeat split; simpl; by rewrite ?app_nil_r.
Qed.

Lemma call_method_step (t : value) (name : string) (args : list value)
    (v : value) (s s' : state U) :
  call_method extern t name args s = (Normal v, s') ->
  step s s' [Method t name args] [] id.
Proof. destruct t; try discriminate; apply ext_call_step. Qed.

Lemma emit_step (name : string) (args : list value) (s s' : state U) o :
  emit listener name args s = (o, s') -> step s s' [] [(name, args)] id.
Proof.
  intros H. apply emit_state in H as [u ->]. repeat split.
  simpl. by rewrite app_nil_r.
Qed.

Lemma createConnection_step (url socketOpts c : value) (s s' : state U) :
  createConnection extern listener url socketOpts s = (Normal c, s') ->
  step s s'
    [ AmqpConnect url socketOpts;
      Method c "on" [VStr "error"; VFun "connection:error"];
      Method c "on" [VStr "close"; VFun "connection:close"] ]
    [ ("connection:created", [c]) ] id.
Proof.
  unfold createConnection. intros H.
  apply bind_Normal_inv in H as (c' & s1 & H1 & H).
  apply bind_Normal_inv in H as (? & s2 & H2 & H).
  apply bind_Normal_inv in H as (? & s3 & H3 & H).
  apply bind_Normal_inv in H as (? & s4 & H4 & H).
  injection H as <- <-.
  apply ext_call_step in H1. apply emit_step in H2.
  apply call_method_step in H3, H4.
  exact (step_trans _ _ _ _ _ _ _ _ _
           (step_trans _ _ _ _ _ _ _ _ _
              (step_trans _ _ _ _ _ _ _ _ _ H1 H2) H3) H4).
Qed.

Lemma createChannel_step (connection : value) (key : string) (ch : value)
    (s s' : state U) :
  createChannel extern listener connection key s = (Normal ch, s') ->
  step s s'
    [ Method connection "createChannel" [];
      Method ch "on" [VStr "error"; VFun (key +:+ ":error")];
      Method ch "on" [VStr "close"; VFun (key +:+ ":close")] ]
    [ (key +:+ ":created", [ch]) ] id.
Proof.
  unfold createChannel. intros H.
  apply bind_Normal_inv in H as (c' & s1 & H1 & H).
  apply bind_Normal_inv in H as (? & s2 & H2 & H).
  apply bind_Normal_inv in H as (? & s3 & H3 & H).
  apply bind_Normal_inv in H as (? & s4 & H4 & H).
  injection H as <- <-.
  apply call_method_step in H1. apply emit_step in H2.
  apply call_method_step in H3, H4.
  exact (step_trans _ _ _ _ _ _ _ _ _
           (step_trans _ _ _ _ _ _ _ _ _
              (step_trans _ _ _ _ _ _ _ _ _ H1 H2) H3) H4).
Qed.

Lemma consume_step (tag : value) (s s' : state U) :
  consume extern listener code s = (Normal tag, s') ->
  step s s'
    [ Method (consumerChannel (app s)) "assertQueue"
             [queueName (app s); queueOpts (app s)];
      Method (consumerChannel (app s)) "consume"
             [queueName (app s); VFun "messageHandler"; consumeOpts (app s)] ]
    [] id.
Proof.
  unfold consume, messageHandler. intros H.
  apply bind_Normal_inv in H as (h & s1 & H1 & H).
  apply bind_Normal_inv in H1 as (? & s0 & H0 & H1).
  injection H0 as <- <-.
  apply bind_Normal_inv in H1 as (fn & s0' & H0 & H1).
  unfold lift in H0. injection H0 as _ <-. injection H1 as _ <-.
  apply bind_Normal_inv in H as (? & s2 & H2 & H).
  injection H2 as <- <-.
  apply bind_Normal_inv in H as (? & s3 & H3 & H).
  apply call_method_step in H3, H.
  exact (step_trans _ _ _ _ _ _ _ _ _ H3 H).
Qed.

Lemma modify_step (f : App -> App) (s s' : state U) (x : unit) :
  modify (set_app f) s = (Normal x, s') -> step s s' [] [] f.
Proof.
  unfold modify. intros [= _ <-]. repeat split; simpl; by rewrite ?app_nil_r.
Qed.

Lemma prefetch_step (s s' : state U) (x : unit) :
  match prefetchOpts (app s) with
  | Some (count, global) =>
      bind (call_method extern (consumerChannel (app s)) "prefetch"
              [count; global]) (fun _ => ret tt)
  | None => ret tt
  end s = (Normal x, s') ->
  step s s'
    match prefetchOpts (app s) with
    | Some (count, global) =>
        [Method (consumerChannel (app s)) "prefetch" [count; global]]
    | None => []
    end [] id.
Proof.
  destruct (prefetchOpts (app s)) as [[count global]|].
  - intros H. apply bind_Normal_inv in H as (? & s1 & H1 & H).
    injection H as _ <-. by apply call_method_step in H1.
  - intros [= _ <-]. repeat split; simpl; by rewrite ?app_nil_r.
Qed.

(** The whole [try] block, when it completes. *)
Lemma connect_setup_Normal (url socketOpts : value) (s s' : state U) :
  connect_setup extern listener code url socketOpts s = (Normal tt, s') ->
  same_registrations (app s) (app s') /\
  calls s' = calls s ++ setup_calls url socketOpts (app s') /\
  emitted s' = emitted s ++ setup_events (app s').
Proof.
  unfold connect_setup. intros H.
  apply bind_Normal_inv in H as (c & s1 & H1 & H).
  apply createConnection_step in H1.
  apply bind_Normal_inv in H as (? & s2 & H2 & H).
  apply modify_step in H2.
  apply bind_Normal_inv in H as (? & ? & [= <- <-] & H).
  apply bind_Normal_inv in H as (ch & s3 & H3 & H).
  apply createChannel_step in H3.
  apply bind_Normal_inv in H as (? & s4 & H4 & H).
  apply modify_step in H4.
  apply bind_Normal_inv in H as (? & ? & [= <- <-] & H).
  apply bind_Normal_inv in H as (? & s5 & H5 & H).
  apply prefetch_step in H5.
  apply bind_Normal_inv in H as (? & ? & [= <- <-] & H).
  apply bind_Normal_inv in H as (pch & s6 & H6 & H).
  apply createChannel_step in H6.
  apply bind_Normal_inv in H as (? & s7 & H7 & H).
  apply modify_step in H7.
  apply bind_Normal_inv in H as (tag & s8 & H8 & H).
  apply consume_step in H8.
  apply bind_Normal_inv in H as (? & s9 & H9 & H).
  apply modify_step in H9.
  apply bind_Normal_inv in H as (? & ? & [= <- <-] & H).
  apply bind_Normal_inv in H as (? & s10 & H10 & H).
  apply emit_step in H10. injection H as <-.
  destruct H1 as (Hc1 & He1 & Ha1), H2 as (Hc2 & He2 & Ha2),
    H3 as (Hc3 & He3 & Ha3), H4 as (Hc4 & He4 & Ha4),
    H5 as (Hc5 & He5 & Ha5), H6 as (Hc6 & He6 & Ha6),
    H7 as (Hc7 & He7 & Ha7), H8 as (Hc8 & He8 & Ha8),
    H9 as (Hc9 & He9 & Ha9), H10 as (Hc10 & He10 & Ha10).
  unfold id in *.
  assert (Hfinal : app s10 =
            with_consumerTag tag
              (with_publisherChannel pch
                 (with_consumerChannel ch (with_connection c (app s))))).
  { congruence. }
  assert (A2 : app s2 = with_connection c (app s)) by congruence.
  assert (A4 : app s4 = with_consumerChannel ch (with_connection c (app s)))
    by congruence.
  assert (A5 : app s5 = app s4) by congruence.
  assert (A7 : app s7 =
            with_publisherChannel pch
              (with_consumerChannel ch (with_connection c (app s))))
    by congruence.
  assert (A9 : app s9 = app s10) by congruence.
  split; [rewrite Hfinal; by repeat split|]. split.
  - rewrite Hc10, Hc9, Hc8, Hc7, Hc6, Hc5, Hc4, Hc3, Hc2, Hc1.
    rewrite A2, A4, A5, A4, A7, Hfinal. unfold setup_calls. simpl.
    rewrite !app_nil_r. rewrite <- !app_assoc. simpl.
    reflexivity.
  - rewrite He10, He9, He8, He7, He6, He5, He4, He3, He2, He1.
    rewrite A9, Hfinal. unfold setup_events. simpl.
    rewrite !app_nil_r. rewrite <- !app_assoc. reflexivity.
Qed.

End SetupFacts.

(** X8.  When every step of the setup goes through, [connect] has made,
    in this order: [amqplib.connect]; the registration of the error and
    close callbacks on the connection; the creation of the consumer channel
    and the registration of its callbacks; [prefetch] on that channel if
    [prefetchOpts] is set; the same for the publisher channel;
    [assertQueue] and [consume] on the consumer channel.  It has emitted
    [connection:created], [consumer-channel:created],
    [publisher-channel:created] and [consumer:listen] with the queue name
    and the consumer tag, holds the four handles, and is fulfilled with
    [undefined]. *)
Theorem connect_opens_in_order {U : Type}
    (extern : list call -> call -> outcome value)
    (listener : fid -> list value -> state U -> outcome unit * U)
    (code : fid -> value -> hprog U)
    (url socketOpts : value) (s s' : state U) :
  connect_checks_pass url socketOpts (app s) ->
  connect_setup extern listener code url
    (with_default_object socketOpts s).1 (with_default_object socketOpts s).2
    = (Normal tt, s') ->
  connect extern listener code url socketOpts s = (Normal VUndef, s') /\
  calls s' =
    calls s ++ setup_calls url (with_default_object socketOpts s).1 (app s') /\
  emitted s' = emitted s ++ setup_events (app s').
Proof.
  intros Hchecks Hsetup.
  rewrite (connect_unfold extern listener code) by exact Hchecks.
  unfold bind, try_catch. rewrite Hsetup. split; [reflexivity|].
  apply connect_setup_Normal in Hsetup as (Hr & Hc & He).
  rewrite with_default_object_app in Hr.
  rewrite with_default_object_calls in Hc.
  assert (Hem : emitted (with_default_object socketOpts s).2 = emitted s)
    by by destruct socketOpts.
  rewrite Hem in He. split; [exact Hc|exact He].
Qed.

Lemma connect_opens_in_order_witness :
  exists s',
    connect obliging_transport idle_listener idle_code
      (VStr "amqp://host") VUndef unconnected_state = (Normal VUndef, s') /\
    calls s' =
      calls unconnected_state ++
      setup_calls (VStr "amqp://host")
        (with_default_object VUndef unconnected_state).1 (app s') /\
    emitted s' = emitted unconnected_state ++ setup_events (app s') /\
    (connection (app s'), consumerChannel (app s'),
     publisherChannel (app s'), consumerTag (app s'))
      = (VHandle 0, VHandle 3, VHandle 6, VHandle 10).
Proof.
  exists (connect_setup obliging_transport idle_listener idle_code
            (VStr "amqp://host")
            (with_default_object VUndef unconnected_state).1
            (with_default_object VUndef unconnected_state).2).2.
  assert (Hr : connect_setup obliging_transport idle_listener idle_code
                 (VStr "amqp://host")
                 (with_default_object VUndef unconnected_state).1
                 (with_default_object VUndef unconnected_state).2
               = (Normal tt,
                  (connect_setup obliging_transport idle_listener idle_code
                     (VStr "amqp://host")
                     (with_default_object VUndef unconnected_state).1
                     (with_default_object VUndef unconnected_state).2).2))
    by (vm_compute; reflexivity).
  destruct (connect_opens_in_order obliging_transport idle_listener idle_code
              (VStr "amqp://host") VUndef unconnected_state _
              connect_checks_pass_unconnected Hr)
    as (H1 & H3 & H4).
  split; [exact H1|]. split; [exact H3|]. split; [exact H4|].
  vm_compute; reflexivity.
Defined.

(** X9.  Handles are stored on the application only once their creation
    has returned.  So when a [connection:created] listener throws, the
    connection that [amqplib.connect] has just opened is never closed: with
    no handle set beforehand, [amqplib.connect] is the only call [connect]
    makes, and the promise is fulfilled all the same. *)
Theorem connect_leaks_connection_when_created_listener_throws {U : Type}
    (extern : list call -> call -> outcome value)
    (listener : fid -> list value -> state U -> outcome unit * U)
    (code : fid -> value -> hprog U)
    (url socketOpts c e : value) (l : fid) (ls : list fid) (s : state U) :
  connect_checks_pass url socketOpts (app s) ->
  truthy (consumerChannel (app s)) = false ->
  truthy (publisherChannel (app s)) = false ->
  truthy (connection (app s)) = false ->
  extern (calls s) (AmqpConnect url (with_default_object socketOpts s).1)
    = Normal c ->
  listeners (app s) !! "connection:created" = Some (l :: ls) ->
  (forall args st, (listener l args st).1 = Throw e) ->
  (connect extern listener code url socketOpts s).1 = Normal VUndef /\
  calls (connect extern listener code url socketOpts s).2 =
    calls s ++ [AmqpConnect url (with_default_object socketOpts s).1] /\
  emitted (connect extern listener code url socketOpts s).2 =
    emitted s ++ [("connection:created", [c])].
Proof.
  intros Hchecks Hcc Hpc Hconn Hext Hls Hthrow.
  rewrite (connect_unfold extern listener code) by exact Hchecks.
  pose proof (with_default_object_app socketOpts s) as Ha.
  pose proof (with_default_object_calls socketOpts s) as Hc.
  assert (Hem : emitted (with_default_object socketOpts s).2 = emitted s)
    by by destruct socketOpts.
  destruct (with_default_object socketOpts s) as [so s0]. simpl in *.
  assert (Hsetup : exists u,
    connect_setup extern listener code url so s0 =
      (Throw e, set_user u (add_emitted ("connection:created", [c])
                              (add_call (AmqpConnect url so) s0)))).
  { unfold connect_setup, createConnection, bind at 1 2 3, ext_call.
    rewrite Hc, Hext. unfold emit, bind at 1 2 3, get, modify. simpl.
    rewrite Ha, Hls. simpl. unfold bind at 1.
    pose proof (Hthrow [c] (add_emitted ("connection:created", [c])
                              (add_call (AmqpConnect url so) s0))) as Ht.
    destruct (listener l [c] _) as [o u]. simpl in Ht. subst o. eauto. }
  destruct Hsetup as [u Hsetup].
  unfold bind, try_catch. rewrite Hsetup.
  unfold connect_cleanup. rewrite close_unfold. unfold close_step.
  cbv zeta. simpl. rewrite Ha, Hcc. simpl. rewrite Ha, Hpc. simpl.
  rewrite Ha, Hconn. simpl. rewrite Hc, Hem. by repeat split.
Qed.

Lemma connect_leaks_connection_when_created_listener_throws_witness :
  (connect obliging_transport failing_listener idle_code
     (VStr "amqp://host") VUndef created_state).1 = Normal VUndef /\
  calls (connect obliging_transport failing_listener idle_code
           (VStr "amqp://host") VUndef created_state).2 =
    [] ++ [AmqpConnect (VStr "amqp://host") (VRef 2)] /\
  emitted (connect obliging_transport failing_listener idle_code
             (VStr "amqp://host") VUndef created_state).2 =
    [] ++ [("connection:created", [VHandle 0])].
Proof.
  apply (connect_leaks_connection_when_created_listener_throws
           obliging_transport failing_listener idle_code
           (VStr "amqp://host") VUndef (VHandle 0) (VError "listener failed")
           "boom" [] created_state); try reflexivity.
  repeat split; try done. by left.
Defined.

(** ** The members of a Context *)

Section MemberFacts.
Context {U : Type}.
Variable extern : list call -> call -> outcome value.

(** A field of the constructor that [app.context] does not name. *)
Lemma Context_own_field (a : App) (message st : value) (k : string) :
  context a !! k = None ->
  Context_own a message st !! k =
    assign_fields ∅ (Context_fields a message st) !! k.
Proof. intros H. unfold Context_own. by rewrite lookup_union_r. Qed.

Lemma own_props_heap (v : value) (s s' : state U) :
  heap s' = heap s -> own_props v s' = own_props v s.
Proof. intros H. destruct v; try reflexivity. simpl. by rewrite H. Qed.

(** The objects that were there keep their properties when a Context is
    built. *)
Lemma own_props_new_Context_old (l : nat) (message : value) (s : state U) :
  l < length (heap s) ->
  own_props (VRef l) (new_Context message s).2 = own_props (VRef l) s.
Proof.
  intros Hl. unfold new_Context. destruct (refused_key _); [reflexivity|].
  simpl. by rewrite lookup_app_l.
Qed.

Lemma new_Context_heap (message : value) (s : state U) :
  plain_context (app s) ->
  heap (new_Context message s).2 =
    heap s ++ [Context_own (app s) message (VRef (S (length (heap s)))); ∅].
Proof. intros H. by rewrite new_Context_eq. Qed.

Lemma delegated_method_not_a_field (a : App) (message st : value)
    (name : string) :
  name ∈ delegated_methods ->
  assign_fields ∅ (Context_fields a message st) !! name = None.
Proof.
  intros H. unfold delegated_methods in H.
  repeat (apply elem_of_cons in H as [-> | H]; [reflexivity|]).
  by apply elem_of_nil in H.
Qed.

Lemma call_delegated_new_Context (name : string) (message : value)
    (args : list value) (s s' : state U) :
  name ∈ delegated_methods ->
  plain_context (app s) ->
  context (app s) !! "consumerChannel" = None ->
  context (app s) !! name = None ->
  heap s' = heap (new_Context message s).2 ->
  call_delegated extern name (VRef (length (heap s))) args s' =
    call_method extern (consumerChannel (app s)) name args s'.
Proof.
  intros Hname Hplain Hcc Hn Hheap.
  unfold call_delegated, bind, get.
  rewrite (own_props_heap _ _ _ Hheap).
  rewrite own_props_new_Context by exact Hplain.
  rewrite (Context_own_field _ _ _ _ Hn).
  rewrite delegated_method_not_a_field by exact Hname.
  unfold Context_delegated, bind, get, Context_get.
  rewrite (own_props_heap _ _ _ Hheap).
  rewrite own_props_new_Context by exact Hplain.
  by rewrite (Context_own_field _ _ _ _ Hcc).
Qed.

Lemma get_member_object (l : loc) (name : string) (s : state U) :
  get_member extern (VRef l) name s =
    (Normal (default VUndef (own_props (VRef l) s !! name)), s).
Proof. reflexivity. Qed.

Lemma message_of_new_Context (message : value) (s : state U) :
  plain_context (app s) ->
  context (app s) !! "message" = None ->
  Context_get (own_props (VRef (length (heap s))) (new_Context message s).2)
              "message" = message.
Proof.
  intros Hplain Hm. rewrite own_props_new_Context by exact Hplain.
  unfold Context_get. by rewrite (Context_own_field _ _ _ _ Hm).
Qed.

End MemberFacts.

(** X10.  A Context keeps the consumer channel it was built with: after
    the application has been closed, which clears the application's
    handle, [ack], [ackAll], [nack], [nackAll] and [reject] on that Context
    still call the channel the application had when the Context was
    built. *)
Theorem delegated_method_calls_channel_of_construction {U : Type}
    (extern : list call -> call -> outcome value)
    (name : string) (message v : value) (args : list value)
    (s s' : state U) :
  name ∈ delegated_methods ->
  plain_context (app s) ->
  context (app s) !! "consumerChannel" = None ->
  context (app s) !! name = None ->
  close extern (new_Context message s).2 = (Normal v, s') ->
  consumerChannel (app s') = VUndef /\
  call_delegated extern name (VRef (length (heap s))) args s' =
    call_method extern (consumerChannel (app s)) name args s'.
Proof.
  intros Hname Hplain Hcc Hn Hclose.
  apply close_Normal in Hclose as (_ & _ & _ & Hc & _ & Hh & _).
  split; [exact Hc|].
  by apply (call_delegated_new_Context extern name message).
Qed.

Lemma delegated_method_calls_channel_of_construction_witness :
  let s' := (close obliging_transport
               (new_Context (VStr "m") connected_state).2).2 in
  consumerChannel (app s') = VUndef /\
  call_delegated obliging_transport "ack" (VRef 0) [VStr "m"] s' =
    (Normal (VHandle 3),
     add_call (Method (VHandle 3) "ack" [VStr "m"]) s').
Proof.
  apply (delegated_method_calls_channel_of_construction obliging_transport
           "ack" (VStr "m") VUndef [VStr "m"] connected_state).
  - apply list_elem_of_here.
  - exact plain_context_connected_app.
  - reflexivity.
  - reflexivity.
  - reflexivity.
Defined.

(** X11.  Every delegated getter of a Context reads through the message
    it was built with; so for a message that is [null] or [undefined] each
    of them, and the setter of [content], throws a TypeError and changes
    nothing. *)
Theorem getters_throw_without_a_message {U : Type}
    (extern : list call -> call -> outcome value)
    (message : value) (s : state U) :
  plain_context (app s) ->
  context (app s) !! "message" = None ->
  message = VNull \/ message = VUndef ->
  let ctx := VRef (length (heap s)) in
  let s1 := (new_Context message s).2 in
  exists r w,
    (forall name,
       Context_message_getter extern name ctx s1 = (Throw (VTypeError r), s1) /\
       Context_fields_getter extern name ctx s1 = (Throw (VTypeError r), s1) /\
       Context_properties_getter extern name ctx s1
         = (Throw (VTypeError r), s1)) /\
    (forall val,
       Context_content_setter extern ctx val s1 = (Throw (VTypeError w), s1)).
Proof.
  intros Hplain Hm Hnull ctx s1.
  pose proof (message_of_new_Context message s Hplain Hm) as Hget.
  fold s1 in Hget. fold ctx in Hget.
  unfold Context_fields_getter, Context_properties_getter,
    Context_message_getter, Context_content_setter, bind, get.
  rewrite Hget.
  destruct Hnull as [-> | ->]; do 2 eexists; split; intros; by repeat split.
Qed.

Lemma getters_throw_without_a_message_witness :
  exists r,
    Context_fields_getter obliging_transport "deliveryTag" (VRef 0)
      (new_Context VNull connected_state).2
    = (Throw (VTypeError r), (new_Context VNull connected_state).2).
Proof.
  destruct (getters_throw_without_a_message obliging_transport VNull
              connected_state plain_context_connected_app eq_refl
              (or_introl eq_refl))
    as (r & w & Hr & _).
  exists r. apply (Hr "deliveryTag").
Defined.

(** X12.  Assigning [ctx.content] writes the [content] property of the
    message object itself, with no call to the transport: reading
    [ctx.content] or the message's [content] afterwards gives the value
    written, the message's other properties are as before, and a Context
    built later for the same message object reads the new content. *)
Theorem content_setter_writes_the_message {U : Type}
    (extern : list call -> call -> outcome value)
    (l : nat) (val : value) (s : state U) :
  plain_context (app s) ->
  context (app s) !! "message" = None ->
  l < length (heap s) ->
  let ctx := VRef (length (heap s)) in
  let s1 := (new_Context (VRef l) s).2 in
  let s2 := (Context_content_setter extern ctx val s1).2 in
  let s3 := (new_Context (VRef l) s2).2 in
  (Context_content_setter extern ctx val s1).1 = Normal val /\
  calls s2 = calls s /\
  own_props (VRef l) s2 = <["content" := val]> (own_props (VRef l) s) /\
  Context_message_getter extern "content" ctx s2 = (Normal val, s2) /\
  Context_message_getter extern "content" (VRef (length (heap s2))) s3
    = (Normal val, s3).
Proof.
  intros Hplain Hm Hl ctx s1 s2 s3.
  pose proof (message_of_new_Context (VRef l) s Hplain Hm) as Hget.
  fold s1 in Hget. fold ctx in Hget.
  assert (Hset : Context_content_setter extern ctx val s1 =
            (Normal val,
             set_heap (alter (insert "content" val) l (heap s1)) s1)).
  { unfold Context_content_setter, bind, get. by rewrite Hget. }
  assert (Hs2 : s2 = set_heap (alter (insert "content" val) l (heap s1)) s1).
  { subst s2. by rewrite Hset. }
  assert (Hheap1 : heap s1 =
            heap s ++ [Context_own (app s) (VRef l)
                         (VRef (S (length (heap s)))); ∅]).
  { subst s1. by apply new_Context_heap. }
  assert (Hlen : length (heap s2) = length (heap s1)).
  { rewrite Hs2. simpl. by rewrite length_alter. }
  assert (Hl1 : l < length (heap s1)).
  { rewrite Hheap1, length_app. lia. }
  assert (Hown : own_props (VRef l) s2
                 = <["content" := val]> (own_props (VRef l) s)).
  { rewrite Hs2. simpl. rewrite list_lookup_alter.
    rewrite Hheap1. rewrite lookup_app_l by exact Hl.
    destruct (lookup_lt_is_Some_2 (heap s) l Hl) as [o Ho].
    rewrite Ho, decide_True by reflexivity. simpl.
    unfold loc. by rewrite Ho. }
  assert (Hctx : own_props ctx s2 = own_props ctx s1).
  { rewrite Hs2. subst ctx. simpl.
    rewrite list_lookup_alter_ne by lia. reflexivity. }
  assert (Happ2 : app s2 = app s).
  { rewrite Hs2. simpl. subst s1. apply new_Context_frame. }
  split; [by rewrite Hset|]. split.
  { rewrite Hs2. simpl. subst s1. apply new_Context_frame. }
  split; [exact Hown|]. split.
  - unfold Context_message_getter, bind, get. rewrite Hctx, Hget.
    rewrite get_member_object, Hown. by rewrite lookup_insert.
  - assert (Hplain2 : plain_context (app s2)) by by rewrite Happ2.
    assert (Hm2 : context (app s2) !! "message" = None) by by rewrite Happ2.
    pose proof (message_of_new_Context (VRef l) s2 Hplain2 Hm2) as Hget2.
    fold s3 in Hget2.
    unfold Context_message_getter, bind, get. rewrite Hget2.
    rewrite get_member_object. subst s3.
    rewrite own_props_new_Context_old by (rewrite Hlen; exact Hl1).
    rewrite Hown. by rewrite lookup_insert.
Qed.

Lemma content_setter_writes_the_message_witness :
  let s2 := (Context_content_setter obliging_transport (VRef 2) (VStr "new")
               (new_Context (VRef 0) delivery_state).2).2 in
  Context_message_getter obliging_transport "content" (VRef 2) s2
    = (Normal (VStr "new"), s2) /\
  Context_message_getter obliging_transport "content" (VRef 4)
    (new_Context (VRef 0) s2).2
    = (Normal (VStr "new"), (new_Context (VRef 0) s2).2).
Proof.
  assert (Hl : 0 < length (heap delivery_state)) by (simpl; lia).
  destruct (content_setter_writes_the_message obliging_transport 0
              (VStr "new") delivery_state plain_context_connected_app
              eq_refl Hl)
    as (_ & _ & _ & H4 & H5).
  split; [exact H4 | exact H5].
Defined.

(** ** publish and sendToQueue with a [bufferFrom] in reach *)

Section PatchedFacts.
Context {U : Type}.
Variable extern : list call -> call -> outcome value.
Variable JSON_stringify : list (gmap string value) -> value -> outcome value.
Variable ToString : value -> string.

Lemma content_bytes_accepted (content : value) (bytes : list Byte.byte) :
  content_bytes content = Some bytes -> content_accepted content = true.
Proof. by destruct content. Qed.

Lemma bufferFrom_bytes (content : value) (bytes : list Byte.byte)
    (s : state U) :
  content_bytes content = Some bytes ->
  bufferFrom JSON_stringify ToString content s = (Normal (VBuf bytes), s).
Proof. destruct content; try done; by intros [= <-]. Qed.

Lemma this_bufferFrom_supplied (this content : value) (s : state U) :
  own_props this s !! "bufferFrom" = Some (VFun "Context.bufferFrom") ->
  this_bufferFrom extern JSON_stringify ToString this content s =
    bufferFrom JSON_stringify ToString content s.
Proof.
  intros H. unfold this_bufferFrom, bind, get, Context_get. by rewrite H.
Qed.

End PatchedFacts.

(** X13.  When [app.context] supplies the static helper under the name
    [bufferFrom], [publish] and [sendToQueue] with well-typed arguments do
    reach the publisher channel the Context was built with: a Buffer is
    passed as it is, a string as the Buffer of its bytes, and the outcome is
    that of the channel's method. *)
Theorem publish_with_bufferFrom_supplied {U : Type}
    (extern : list call -> call -> outcome value)
    (JSON_stringify : list (gmap string value) -> value -> outcome value)
    (ToString : value -> string)
    (message exchange routingKey content options : value)
    (bytes : list Byte.byte) (s : state U) :
  plain_context (app s) ->
  context (app s) !! "bufferFrom" = Some (VFun "Context.bufferFrom") ->
  context (app s) !! "publisherChannel" = None ->
  typeof exchange = TString -> typeof routingKey = TString ->
  typeof options = TObject ->
  content_bytes content = Some bytes ->
  let ctx := VRef (length (heap s)) in
  let s1 := (new_Context message s).2 in
  Context_publish extern JSON_stringify ToString
    ctx exchange routingKey content options s1 =
    call_method extern (publisherChannel (app s)) "publish"
      [exchange; routingKey; VBuf bytes; options] s1 /\
  Context_sendToQueue extern JSON_stringify ToString
    ctx exchange content options s1 =
    call_method extern (publisherChannel (app s)) "sendToQueue"
      [exchange; VBuf bytes; options] s1.
Proof.
  intros Hplain Hbf Hpc He Hr Ho Hb ctx s1.
  assert (Hown : own_props ctx s1 =
            Context_own (app s) message (VRef (S (length (heap s))))).
  { subst ctx s1. by apply own_props_new_Context. }
  assert (Hthis : own_props ctx s1 !! "bufferFrom"
                  = Some (VFun "Context.bufferFrom")).
  { rewrite Hown. unfold Context_own. by apply lookup_union_Some_l. }
  assert (Hch : Context_get (own_props ctx s1) "publisherChannel"
                = publisherChannel (app s)).
  { rewrite Hown. unfold Context_get.
    by rewrite (Context_own_field _ _ _ _ Hpc). }
  assert (Hopt : options <> VUndef) by (intros ->; discriminate).
  assert (Hwd : with_default_object options s1 = (options, s1))
    by by destruct options.
  assert (Hbuf : this_bufferFrom extern JSON_stringify ToString ctx content s1
                 = (Normal (VBuf bytes), s1)).
  { rewrite this_bufferFrom_supplied by exact Hthis.
    by apply bufferFrom_bytes. }
  unfold Context_publish, Context_sendToQueue.
  rewrite !default_bind, Hwd. cbn [fst snd].
  rewrite (bool_decide_eq_true_2 _ He), (bool_decide_eq_true_2 _ Hr),
    (bool_decide_eq_true_2 _ Ho), (content_bytes_accepted _ _ Hb).
  cbn [negb]. unfold bind at 1 3. rewrite Hbuf.
  unfold bind, get. by rewrite Hch.
Qed.

Lemma plain_context_patched_app : plain_context patched_app.
Proof.
  intros k Hk. unfold delegated_accessors, delegated_getters in Hk.
  simpl in Hk.
  repeat (apply elem_of_cons in Hk as [-> | Hk]; [reflexivity|]).
  by apply elem_of_nil in Hk.
Defined.

Lemma publish_with_bufferFrom_supplied_witness :
  let s1 := (new_Context (VStr "m") patched_state).2 in
  Context_publish obliging_transport no_JSON no_ToString
    (VRef 0) (VStr "ex") (VStr "rk") (VStr "hi") VNull s1 =
    (Normal (VHandle 0),
     add_call (Method (VHandle 7) "publish"
                 [VStr "ex"; VStr "rk";
                  VBuf (String.list_byte_of_string "hi"); VNull]) s1).
Proof.
  destruct (publish_with_bufferFrom_supplied obliging_transport no_JSON
              no_ToString (VStr "m") (VStr "ex") (VStr "rk") (VStr "hi")
              VNull (String.list_byte_of_string "hi") patched_state
              plain_context_patched_app eq_refl eq_refl eq_refl eq_refl
              eq_refl eq_refl)
    as [H _].
  exact H.
Defined.

(** X14.  Two Contexts built one after the other are two objects, each
    with a state object of its own: a property written on the state of the
    first is not seen on the state of the second, which is still empty. *)
Theorem contexts_have_separate_state {U : Type}
    (extern : list call -> call -> outcome value)
    (m1 m2 v : value) (k : string) (s : state U) :
  plain_context (app s) ->
  context (app s) !! "state" = None ->
  let n := length (heap s) in
  let s1 := (new_Context m1 s).2 in
  let s2 := (new_Context m2 s1).2 in
  let s3 := (set_member extern (VRef (n + 1)) k v s2).2 in
  (new_Context m1 s).1 = Normal (VRef n) /\
  (new_Context m2 s1).1 = Normal (VRef (n + 2)) /\
  own_props (VRef n) s3 !! "state" = Some (VRef (n + 1)) /\
  own_props (VRef (n + 2)) s3 !! "state" = Some (VRef (n + 3)) /\
  own_props (VRef (n + 1)) s3 = {[ k := v ]} /\
  own_props (VRef (n + 3)) s3 = ∅.
Proof.
  intros Hplain Hst n s1 s2 s3.
  assert (H1 : new_Context m1 s =
            (Normal (VRef n),
             set_heap (heap s ++ [Context_own (app s) m1 (VRef (S n)); ∅]) s))
    by by apply new_Context_eq.
  assert (Hs1 : s1 = set_heap
                  (heap s ++ [Context_own (app s) m1 (VRef (S n)); ∅]) s)
    by (subst s1; by rewrite H1).
  assert (Hlen1 : length (heap s1) = n + 2).
  { rewrite Hs1. simpl. rewrite length_app. simpl. subst n. lia. }
  assert (Happ1 : app s1 = app s) by by rewrite Hs1.
  assert (Hplain1 : plain_context (app s1)) by by rewrite Happ1.
  assert (H2 : new_Context m2 s1 =
            (Normal (VRef (n + 2)),
             set_heap (heap s1 ++
                       [Context_own (app s) m2 (VRef (S (n + 2))); ∅]) s1)).
  { rewrite new_Context_eq by exact Hplain1. by rewrite Hlen1, Happ1. }
  assert (Hs2 : s2 = set_heap
                  (heap s1 ++ [Context_own (app s) m2 (VRef (S (n + 2))); ∅])
                  s1)
    by (subst s2; by rewrite H2).
  assert (Hheap2 : heap s2 =
            heap s ++ [Context_own (app s) m1 (VRef (S n)); ∅;
                       Context_own (app s) m2 (VRef (S (n + 2))); ∅]).
  { rewrite Hs2, Hs1. simpl. by rewrite <- app_assoc. }
  assert (Hheap3 : heap s3 =
            heap s ++ [Context_own (app s) m1 (VRef (S n)); {[ k := v ]};
                       Context_own (app s) m2 (VRef (S (n + 2))); ∅]).
  { subst s3. simpl. rewrite Hheap2.
    apply list_eq. intros i.
    destruct (decide (i = n + 1)) as [-> | Hi].
    - rewrite list_lookup_alter, decide_True by reflexivity.
      rewrite !lookup_app_r by (subst n; lia).
      replace (n + 1 - length (heap s)) with 1 by (subst n; lia).
      simpl. by rewrite insert_empty.
    - rewrite list_lookup_alter_ne by done.
      destruct (decide (i < n)) as [Hlt | Hge].
      + by rewrite !lookup_app_l by (subst n; lia).
      + rewrite !lookup_app_r by (subst n; lia).
        destruct (i - length (heap s)) as [|[|?]] eqn:E; try reflexivity.
        subst n. lia. }
  assert (Hstate : forall m st,
            Context_own (app s) m st !! "state" = Some st).
  { intros m st. by rewrite (Context_own_field _ _ _ _ Hst). }
  split; [by rewrite H1|]. split; [by rewrite H2|].
  unfold own_props. rewrite Hheap3.
  rewrite !lookup_app_r by (subst n; lia).
  replace (n - length (heap s)) with 0 by (subst n; lia).
  replace (n + 1 - length (heap s)) with 1 by (subst n; lia).
  replace (n + 2 - length (heap s)) with 2 by (subst n; lia).
  replace (n + 3 - length (heap s)) with 3 by (subst n; lia).
  simpl. rewrite !Hstate.
  replace (S n) with (n + 1) by lia.
  replace (S (n + 2)) with (n + 3) by lia.
  by repeat split.
Qed.

Lemma contexts_have_separate_state_witness :
  let s3 := (set_member obliging_transport (VRef 1) "seen" (VBool true)
               (new_Context (VStr "b")
                  (new_Context (VStr "a") connected_state).2).2).2 in
  own_props (VRef 1) s3 = {[ "seen" := VBool true ]} /\
  own_props (VRef 3) s3 = (∅ : gmap string value).
Proof.
  destruct (contexts_have_separate_state obliging_transport
              (VStr "a") (VStr "b") (VBool true) "seen" connected_state
              plain_context_connected_app eq_refl)
    as (_ & _ & _ & _ & H5 & H6).
  split; [exact H5 | exact H6].
Defined.

(** X15.  While [app.context] has a key that names a delegated getter
    (and no key [content] or [__proto__], which are assigned through
    setters), every delivery fails before it starts: the constructor's
    [Object.assign] throws a TypeError outside the [try] block, so the
    callback rejects with it; no handler runs, [onerror] is not called,
    nothing is emitted and no call is made. *)
Theorem on_message_rejects_when_context_refused {U : Type}
    (extern : list call -> call -> outcome value)
    (listener : fid -> list value -> state U -> outcome unit * U)
    (fn : value -> M U unit) (message : value) (s : state U) :
  refused_key (context (app s)) = true ->
  context (app s) !! "content" = None ->
  context (app s) !! "__proto__" = None ->
  exists text,
    on_message extern listener fn message s = (Throw (VTypeError text), s).
Proof.
  intros H _ _. unfold on_message, bind, new_Context. rewrite H. by eexists.
Qed.

Lemma on_message_rejects_when_context_refused_witness :
  exists text,
    on_message obliging_transport idle_listener
      (composed obliging_transport idle_code ["handler"]) (VStr "m")
      fields_state = (Throw (VTypeError text), fields_state).
Proof.
  apply (on_message_rejects_when_context_refused obliging_transport
           idle_listener (composed obliging_transport idle_code ["handler"])
           (VStr "m") fields_state); reflexivity.
Defined.

(** ** Events *)

Section EventFacts.
Context {U : Type}.
Variable extern : list call -> call -> outcome value.
Variable listener : fid -> list value -> state U -> outcome unit * U.

Lemma emitted_emit (name : string) (args : list value) (s : state U) :
  emitted (emit listener name args s).2 = emitted s ++ [(name, args)] /\
  calls (emit listener name args s).2 = calls s.
Proof.
  destruct (emit listener name args s) as [o s'] eqn:E.
  by apply emit_state in E as [u ->].
Qed.

Lemma emit_then_ret (name : string) (args : list value) (v : value)
    (s : state U) :
  (bind (emit listener name args) (fun _ => ret v) s).2 =
    (emit listener name args s).2.
Proof. unfold bind. by destruct (emit listener name args s) as [[?|?] ?]. Qed.

Lemma emits_only_refl (names : list string) (s : state U) :
  emits_only names s s.
Proof. exists []. by rewrite app_nil_r. Qed.

Lemma emits_only_same (names : list string) (s s' : state U) :
  emitted s' = emitted s -> emits_only names s s'.
Proof. intros H. exists []. by rewrite app_nil_r. Qed.

Lemma emits_only_trans (names : list string) (s1 s2 s3 : state U) :
  emits_only names s1 s2 -> emits_only names s2 s3 -> emits_only names s1 s3.
Proof.
  intros (l1 & H1 & F1) (l2 & H2 & F2). exists (l1 ++ l2). split.
  - by rewrite H2, H1, app_assoc.
  - by apply Forall_app.
Qed.

Lemma emits_only_event (names : list string) (name : string)
    (args : list value) (s : state U) :
  name ∈ names -> emits_only names s (add_emitted (name, args) s).
Proof. intros H. exists [(name, args)]. split; [done|]. by constructor. Qed.

Lemma emits_only_emit (names : list string) (name : string)
    (args : list value) (v : value) (s : state U) :
  name ∈ names ->
  emits_only names s (bind (emit listener name args) (fun _ => ret v) s).2.
Proof.
  intros H. rewrite emit_then_ret. exists [(name, args)].
  split; [apply emitted_emit | by constructor].
Qed.

Lemma get_member_emitted (target : value) (name : string) (s : state U) :
  emitted (get_member extern target name s).2 = emitted s.
Proof. by destruct target. Qed.

End EventFacts.

(** X16.  The error callback of the connection looks at the error's
    message: an error whose message is ['Connection closing'] is dropped,
    with no event; any other is emitted once as [connection:error].  The
    error callback of a channel emits every error, whatever its message. *)
Theorem connection_error_callback_drops_closing_error {U : Type}
    (extern : list call -> call -> outcome value)
    (listener : fid -> list value -> state U -> outcome unit * U)
    (err : value) (text : string) (s s1 : state U) :
  get_member extern err "message" s = (Normal (VStr text), s1) ->
  (text = "Connection closing" ->
   connection_error_callback extern listener err s = (Normal VUndef, s1)) /\
  (text <> "Connection closing" ->
   emitted (connection_error_callback extern listener err s).2 =
     emitted s ++ [("connection:error", [err])]) /\
  (forall key,
     emitted (channel_error_callback listener key err s).2 =
       emitted s ++ [(key +:+ ":error", [err])]).
Proof.
  intros Hget.
  pose proof (get_member_emitted extern err "message" s) as Hem.
  rewrite Hget in Hem. simpl in Hem.
  split; [|split].
  - intros ->. unfold connection_error_callback, bind at 1.
    by rewrite Hget.
  - intros Hne. unfold connection_error_callback, bind at 1.
    rewrite Hget.
    destruct (String.eqb text "Connection closing") eqn:E.
    + by apply String.eqb_eq in E.
    + rewrite emit_then_ret, <- Hem. apply emitted_emit.
  - intros key. unfold channel_error_callback.
    rewrite emit_then_ret. apply emitted_emit.
Qed.

Lemma connection_error_callback_drops_closing_error_witness :
  connection_error_callback obliging_transport idle_listener
    (VError "Connection closing") connected_state
    = (Normal VUndef, connected_state) /\
  emitted (channel_error_callback idle_listener "consumer-channel"
             (VError "Connection closing") connected_state).2 =
    [("consumer-channel:error", [VError "Connection closing"])].
Proof.
  destruct (connection_error_callback_drops_closing_error obliging_transport
              idle_listener (VError "Connection closing")
              "Connection closing" connected_state connected_state eq_refl)
    as (H1 & _ & H3).
  split; [exact (H1 eq_refl) | exact (H3 "consumer-channel")].
Defined.

(** X17.  The application emits events under eleven names only:
    [connection:created], [connection:error], [connection:close], the same
    three for [consumer-channel] and for [publisher-channel],
    [consumer:listen] and [consumer:error].  This holds for [connect] and
    [close], however they end, for the callbacks registered on the
    connection and on the two channels, and for [onerror]; so no event whose
    name ends in [:closed] is ever emitted. *)
Theorem only_known_events_are_emitted {U : Type}
    (extern : list call -> call -> outcome value)
    (listener : fid -> list value -> state U -> outcome unit * U)
    (code : fid -> value -> hprog U)
    (url socketOpts err this : value) (key : string) (s : state U) :
  key ∈ ["consumer-channel"; "publisher-channel"] ->
  emits_only event_names s
    (connect extern listener code url socketOpts s).2 /\
  emits_only event_names s (close extern s).2 /\
  emits_only event_names s
    (connection_error_callback extern listener err s).2 /\
  emits_only event_names s (connection_close_callback listener s).2 /\
  emits_only event_names s (channel_error_callback listener key err s).2 /\
  emits_only event_names s (channel_close_callback listener key s).2 /\
  emits_only event_names s (Context_onerror extern listener this err s).2 /\
  Forall (fun name => name ∉ event_names)
    ["connection:closed"; "consumer-channel:closed";
     "publisher-channel:closed"].
Proof.
  intros Hkey.
  assert (Hkeys : key +:+ ":error" ∈ event_names /\
                  key +:+ ":close" ∈ event_names).
  { apply elem_of_cons in Hkey as [-> | Hkey];
      [|apply elem_of_cons in Hkey as [-> | Hkey];
        [|by apply elem_of_nil in Hkey]];
      split; vm_compute;
      repeat first [apply list_elem_of_here | apply list_elem_of_further]. }
  split; [|split; [|split; [|split; [|split; [|split; [|split]]]]]].
  - apply (keeps_connect extern listener code (emits_only event_names));
      first [ intros; by apply emits_only_event
            | intros; by apply emits_only_same
            | intros s1 s2 s3; by apply emits_only_trans ].
  - apply (keeps_close extern (emits_only event_names));
      first [ intros; by apply emits_only_same
            | intros s1 s2 s3; by apply emits_only_trans ].
  - unfold connection_error_callback, bind at 1.
    pose proof (get_member_emitted extern err "message" s) as Hem.
    destruct (get_member extern err "message" s) as [[m|e] s1];
      simpl in Hem; [|by apply emits_only_same].
    apply (emits_only_trans _ s s1); [by apply emits_only_same|].
    assert (Hev : emits_only event_names s1
              (bind (emit listener "connection:error" [err])
                    (fun _ => ret VUndef) s1).2).
    { apply emits_only_emit. vm_compute.
      repeat first [apply list_elem_of_here | apply list_elem_of_further]. }
    destruct m; try exact Hev.
    destruct (String.eqb _ _); [apply emits_only_refl | exact Hev].
  - apply emits_only_emit. vm_compute.
    repeat first [apply list_elem_of_here | apply list_elem_of_further].
  - apply emits_only_emit, Hkeys.
  - apply emits_only_emit, Hkeys.
  - unfold Context_onerror, bind at 1, get.
    assert (Hev : emits_only event_names s
              (bind (emit listener "consumer:error" [err; this])
                    (fun _ => ret VUndef) s).2).
    { apply emits_only_emit. vm_compute.
      repeat first [apply list_elem_of_here | apply list_elem_of_further]. }
    destruct (Context_get _ _); try exact Hev;
      apply emits_only_same; unfold bind, call_method, ext_call, throw;
      simpl; try reflexivity; by destruct (extern _ _).
  - repeat constructor; intros H;
      repeat (apply elem_of_cons in H as [H | H]; [discriminate H|]);
      by apply elem_of_nil in H.
Qed.

Lemma only_known_events_are_emitted_witness :
  emits_only event_names unconnected_state
    (connect obliging_transport idle_listener idle_code
       (VStr "amqp://host") VUndef unconnected_state).2 /\
  emits_only event_names unconnected_state
    (channel_close_callback idle_listener "publisher-channel"
       unconnected_state).2.
Proof.
  assert (Hkey : "publisher-channel"
                   ∈ ["consumer-channel"; "publisher-channel"])
    by (apply list_elem_of_further, list_elem_of_here).
  destruct (only_known_events_are_emitted obliging_transport idle_listener
              idle_code (VStr "amqp://host") VUndef VUndef VUndef
              "publisher-channel" unconnected_state Hkey)
    as (H1 & _ & _ & _ & _ & H6 & _).
  split; [exact H1 | exact H6].
Defined.

(** ** Middleware is made of functions *)

Lemma check_functions_outcome {U : Type} (fns : list value) (s : state U) :
  (check_functions fns s = (Normal tt, s) /\
   forallb (fun v => bool_decide (typeof v = TFunction)) fns = true) \/
  check_functions fns s =
    (Throw (VTypeError "Middleware must be composed of functions!"), s).
Proof.
  induction fns as [|fn rest IH]; simpl; [by left|].
  destruct (bool_decide (typeof fn = TFunction)); simpl; [|by right].
  exact IH.
Qed.

Lemma use_functions_only {U : Type} (mws : list value) (s : state U) :
  functions_only (app s) -> functions_only (app (use mws s).2).
Proof.
  intros H. unfold use, bind at 1.
  destruct (check_functions_outcome mws s) as [[-> Hf] | ->]; [|exact H].
  unfold functions_only. simpl. rewrite forallb_app.
  by rewrite H, Hf.
Qed.

(** X18.  Every registered middleware is a function: the constructor
    starts with none, [use] adds functions only, and [prefetch], [connect]
    and [close] leave the middleware alone, however they end.  So the
    composition of the handlers that [connect] asks for is never refused. *)
Theorem middlewares_are_always_functions {U : Type}
    (extern : list call -> call -> outcome value)
    (listener : fid -> list value -> state U -> outcome unit * U)
    (code : fid -> value -> hprog U) (s : state U) :
  functions_only (app s) ->
  (forall mws, functions_only (app (use mws s).2)) /\
  (forall count global, functions_only (app (prefetch count global s).2)) /\
  (forall url socketOpts,
     functions_only (app (connect extern listener code url socketOpts s).2)) /\
  functions_only (app (close extern s).2) /\
  (forall queueName queueOpts consumeOpts,
     functions_only
       (app (new_Application queueName queueOpts consumeOpts s).2)) /\
  exists h, messageHandler extern listener code s = (Normal h, s).
Proof.
  intros H.
  split; [intros mws; by apply use_functions_only|].
  split.
  { intros count global. unfold prefetch.
    by destruct (typeof count). }
  split.
  { intros url socketOpts.
    assert (Hm : middlewares
                   (app (connect extern listener code url socketOpts s).2)
                 = middlewares (app s)).
    { apply (keeps_connect extern listener code
               (fun s s' => middlewares (app s') = middlewares (app s)));
        first [ by intros | intros s1 s2 s3; congruence ]. }
    unfold functions_only. by rewrite Hm. }
  split.
  { assert (Hm : middlewares (app (close extern s).2) = middlewares (app s)).
    { apply (keeps_close extern
               (fun s s' => middlewares (app s') = middlewares (app s)));
        first [ by intros | intros s1 s2 s3; congruence ]. }
    unfold functions_only. by rewrite Hm. }
  split.
  { intros queueName queueOpts consumeOpts.
    unfold new_Application, bind, alloc, ret, modify, throw.
    destruct queueOpts, consumeOpts; simpl;
      repeat (match goal with
              | |- context [if ?b then _ else _] => destruct b
              end; simpl); done. }
  unfold messageHandler, bind, get, lift, compose.
  unfold functions_only in H. rewrite H. by eexists.
Qed.

Lemma middlewares_are_always_functions_witness :
  functions_only
    (app (use [VFun "a"; VFun "b"] unconnected_state).2) /\
  functions_only (app (use [VFun "a"; VNum 1] unconnected_state).2) /\
  exists h,
    messageHandler obliging_transport idle_listener idle_code
      unconnected_state = (Normal h, unconnected_state).
Proof.
  assert (H : functions_only (app unconnected_state)) by reflexivity.
  destruct (middlewares_are_always_functions obliging_transport idle_listener
              idle_code unconnected_state H)
    as (H1 & _ & _ & _ & _ & H6).
  split; [apply H1|]. split; [apply H1 | exact H6].
Defined.

(** ** The static helper *)

(** X19.  What the static [bufferFrom] returns is a Buffer, and the helper
    changes nothing: a Buffer is returned as it is, a string gives the
    Buffer of its bytes, and applying the helper to its own result gives
    that result again.  For an object that [JSON.stringify] maps to
    [undefined], [Buffer.from] throws a TypeError. *)
Theorem bufferFrom_gives_a_Buffer {U : Type}
    (JSON_stringify : list (gmap string value) -> value -> outcome value)
    (ToString : value -> string)
    (data v : value) (s s' : state U) :
  bufferFrom JSON_stringify ToString data s = (Normal v, s') ->
  s' = s /\ instanceof_Buffer v = true /\
  bufferFrom JSON_stringify ToString v s = (Normal v, s) /\
  (instanceof_Buffer data = true -> v = data) /\
  (forall text, data = VStr text ->
                v = VBuf (String.list_byte_of_string text)) /\
  (forall d,
     typeof d = TObject -> instanceof_Buffer d = false ->
     JSON_stringify (heap s) d = Normal VUndef ->
     exists m,
       bufferFrom JSON_stringify ToString d s = (Throw (VTypeError m), s)).
Proof.
  intros H.
  assert (Hedge : forall d,
            typeof d = TObject -> instanceof_Buffer d = false ->
            JSON_stringify (heap s) d = Normal VUndef ->
            exists m,
              bufferFrom JSON_stringify ToString d s
                = (Throw (VTypeError m), s)).
  { intros d Ht Hb Hj. unfold bufferFrom. rewrite Hb.
    rewrite (bool_decide_eq_true_2 _ Ht).
    unfold bind, get, lift. rewrite Hj. simpl. by eexists. }
  unfold bufferFrom in H.
  destruct (instanceof_Buffer data) eqn:Eb.
  - injection H as <- <-. destruct data; try discriminate.
    split; [reflexivity|]. split; [reflexivity|]. split; [reflexivity|].
    split; [reflexivity|]. split; [intros text; discriminate | exact Hedge].
  - unfold bind in H.
    destruct (bool_decide (typeof data = TObject)) eqn:Et.
    + apply bool_decide_eq_true_1 in Et.
      unfold get, lift in H.
      destruct (JSON_stringify (heap s) data) as [j|e]; [|discriminate].
      destruct j; try discriminate. injection H as <- <-.
      split; [reflexivity|]. split; [reflexivity|]. split; [reflexivity|].
      split; [intros; discriminate|].
      split; [|exact Hedge]. intros text ->. discriminate.
    + simpl in H. injection H as <- <-.
      split; [reflexivity|]. split; [reflexivity|]. split; [reflexivity|].
      split; [intros; discriminate|].
      split; [|exact Hedge]. by intros text ->.
Qed.

Lemma bufferFrom_gives_a_Buffer_witness :
  instanceof_Buffer (VBuf (String.list_byte_of_string "hi")) = true /\
  bufferFrom no_JSON no_ToString (VBuf (String.list_byte_of_string "hi"))
    connected_state
    = (Normal (VBuf (String.list_byte_of_string "hi")), connected_state).
Proof.
  destruct (bufferFrom_gives_a_Buffer no_JSON no_ToString (VStr "hi")
              (VBuf (String.list_byte_of_string "hi"))
              connected_state connected_state eq_refl)
    as (_ & H2 & H3 & _).
  split; [exact H2 | exact H3].
Defined.

(** ** A setup that fails *)


